(** * Service-sheet: save, history and submit of the service-call form

    A shallow embedding of the form session of the service-call sheet
    application (the [App] component: [loadHistory], [saveToLocalStorage],
    [handleSave], [handleOfflineSubmit], [handleSubmit]) together with the
    collaborators it talks to: the device's local storage, the cloud
    document store, the cloud blob store and the PDF renderer.

    Handlers are written in a small state-and-exception monad over the
    [World]; each handler receives the render snapshot of the component
    state it closes over, exactly as a React event handler does.  A
    submission can be followed across its upload, with the buttons used
    while the request is in flight. *)

From Stdlib Require Import ZArith String Ascii List Lia.
From stdpp Require Import base strings list gmap fin_maps pretty sorting.

Open Scope string_scope.
Open Scope list_scope.
Open Scope Z_scope.

(** ** Values and records *)

(** A field value of a form record or of a cloud document. *)
Inductive Value :=
| VNull
| VBool (b : bool)
| VStr (s : string)
| VNum (z : Z)
| VTimestamp (millis : Z)   (* a stored Firestore [Timestamp] *)
| VServerTimestamp.         (* the [serverTimestamp()] sentinel of a write *)

#[global] Instance Value_eq_dec : EqDecision Value.
Proof. solve_decision. Defined.

(** [ServiceFormData] at run time: a flat object from field names to values.
    Spreading [{...data, k: v}] is [<[k:=v]> data]. *)
Abbreviation FormData := (gmap string Value).

(** JavaScript truthiness of a property read ([None] is [undefined]). *)
Definition truthy (v : option Value) : bool :=
  match v with
  | None | Some VNull => false
  | Some (VBool b) => b
  | Some (VStr s) => negb (String.eqb s "")
  | Some (VNum z) => negb (z =? 0)
  | Some (VTimestamp _) | Some VServerTimestamp => true
  end.

(** What a template literal prints for a property read. *)
Definition display (v : option Value) : string :=
  match v with
  | None => "undefined"
  | Some VNull => "null"
  | Some (VBool true) => "true"
  | Some (VBool false) => "false"
  | Some (VStr s) => s
  | Some (VNum z) => pretty z
  | Some (VTimestamp _) | Some VServerTimestamp => "[object Object]"
  end.

Record Technician := {
  tech_id : string;
  tech_name : string;
  tech_vehicleNumber : string;
  tech_pin : string
}.

(** [HistoryItem]: [{ id, timestamp, data }]. *)
Record HistoryItem := {
  item_id : string;
  item_timestamp : Z;
  item_data : FormData
}.

#[global] Instance HistoryItem_eq_dec : EqDecision HistoryItem.
Proof. solve_decision. Defined.

Inductive SaveStatus := idle | saving | success | local.

#[global] Instance SaveStatus_eq_dec : EqDecision SaveStatus.
Proof. solve_decision. Defined.

(** ** JavaScript library functions used by the handlers *)

(** [s.startsWith(p)]. *)
Definition startsWith (s p : string) : bool := String.prefix p s.

(** ['local_draft_' + Date.now()]. *)
Definition local_draft_id (now : Z) : string := "local_draft_" +:+ pretty now.

(** [\s].  A character of a string is a code unit below 256; of the white
    space of JavaScript these are tab to carriage return (9 to 13), the
    space (32) and the no-break space (160). *)
Definition is_space (c : ascii) : bool :=
  let n := nat_of_ascii c in
  ((9 <=? n)%nat && (n <=? 13)%nat) || (n =? 32)%nat || (n =? 160)%nat.

(** [s.replace(/\s+/g, '_')]: every maximal run of white space becomes one
    underscore.  [in_run] tells whether the previous character was a space. *)
Fixpoint replace_spaces_go (in_run : bool) (s : string) : string :=
  match s with
  | EmptyString => EmptyString
  | String c s' =>
      if is_space c
      then (if in_run then replace_spaces_go true s'
            else String "_" (replace_spaces_go true s'))
      else String c (replace_spaces_go false s')
  end.

Definition replace_spaces (s : string) : string := replace_spaces_go false s.

Section JsArrays.
Context {A : Type}.

(** [Array.prototype.sort(cmp)]: the sort is stable; an element is placed
    before [y] exactly when [cmp x y <= 0] for the elements it passes. *)
Fixpoint sort_insert (cmp : A → A → Z) (x : A) (l : list A) : list A :=
  match l with
  | [] => [x]
  | y :: l' => if 0 <? cmp x y then y :: sort_insert cmp x l' else x :: l
  end.

Definition array_sort (cmp : A → A → Z) (l : list A) : list A :=
  foldr (sort_insert cmp) [] l.

(** [arr.findIndex(p)], with [None] for [-1]. *)
Fixpoint findIndex (p : A → bool) (l : list A) : option nat :=
  match l with
  | [] => None
  | x :: l' => if p x then Some 0%nat else S <$> findIndex p l'
  end.

(** A JavaScript [Map] with string keys: entries in insertion order.
    [Map.prototype.set] overwrites the value of a present key in place
    (the key keeps its position) and appends an absent key. *)
Fixpoint Map_set (k : string) (v : A) (m : list (string * A)) : list (string * A) :=
  match m with
  | [] => [(k, v)]
  | (k', v') :: m' =>
      if decide (k' = k) then (k', v) :: m' else (k', v') :: Map_set k v m'
  end.

(** [new Map(entries)]. *)
Definition new_Map (entries : list (string * A)) : list (string * A) :=
  fold_left (λ m kv, Map_set kv.1 kv.2 m) entries [].

(** [Array.from(m.values())]. *)
Definition Map_values (m : list (string * A)) : list A := m.*2.
End JsArrays.

(** [Array.from(new Map(items.map(item => [item.id, item])).values())]. *)
Definition unique_by_id (items : list HistoryItem) : list HistoryItem :=
  Map_values (new_Map ((λ item, (item_id item, item)) <$> items)).

(** [(a, b) => b.timestamp - a.timestamp]. *)
Definition newest_first (a b : HistoryItem) : Z :=
  item_timestamp b - item_timestamp a.


(** ** The world the component runs in *)

Inductive Exn :=
| FirebaseError             (* a rejected Firestore or Storage request *)
| SyntaxError               (* [JSON.parse] of text that is not a report array *)
| QuotaExceededError        (* [localStorage.setItem] on a full store *)
| TypeError                 (* a method call on [undefined] *)
| RenderError (msg : string).  (* thrown while drawing the PDF *)

(** [e.message]; the texts of the built-in errors stand for the browser's. *)
Definition message (e : Exn) : string :=
  match e with
  | FirebaseError => "Missing or insufficient permissions."
  | SyntaxError => "Unexpected token in JSON"
  | QuotaExceededError => "The quota has been exceeded."
  | TypeError => "Cannot read properties of undefined"
  | RenderError msg => msg
  end.

(** What [localStorage.getItem(LOCAL_REPORTS_KEY)] holds: nothing, text the
    readers choke on, or the JSON of an array of reports. *)
Inductive StoredReports :=
| NoEntry
| Garbled
| Reports (reports : list HistoryItem).

#[global] Instance StoredReports_eq_dec : EqDecision StoredReports.
Proof. solve_decision. Defined.

Record LocalStorage := {
  ls_reports : StoredReports;
  ls_full : bool                 (* [setItem] throws when set *)
}.

Record CloudDoc := {
  doc_id : string;
  doc_data : FormData
}.

(** The [service_reports] collection and the behaviour of the service:
    the [n]-th request is answered ([cloud_up n]) or rejected; a create
    answered at request [n] is given the id [cloud_newid n]; server
    timestamps of request [n] resolve to [cloud_clock n]. *)
Record Cloud := {
  cloud_docs : list CloudDoc;
  cloud_calls : nat;
  cloud_up : nat → bool;
  cloud_newid : nat → string;
  cloud_clock : nat → Z
}.

(** The blob store: [blob_enabled] is [storage && navigator.onLine],
    [blob_up] whether [uploadBytes] is answered. *)
Record BlobStore := {
  blob_enabled : bool;
  blob_up : bool;
  blob_files : list (string * string)
}.

Inductive TimerTask :=
| ResetSaveStatus
| OfferEmail (subject body : string).

Inductive Event :=
| Alert (msg : string)
| ConsoleLog (msg : string) (e : Exn)
| CloudCreate (payload : FormData)
| CloudUpdate (id : string) (payload : FormData)
| CloudQuery (techId : string)
| PdfRender (data : FormData)
| BlobUpload (path : string)
| Download (fileName : string) (pdf : string)
| ConfirmEmail (subject body : string)
| UnhandledRejection (e : Exn).

(** The [useState] cells of [App] that the handlers read or write. *)
Record AppState := {
  currentUser : option Technician;
  formData : FormData;
  currentDocId : option string;
  saveStatus : SaveStatus;
  isSubmitting : bool;
  history : list HistoryItem
}.

Record World := {
  app : AppState;
  localStorage : LocalStorage;
  db : Cloud;
  storage : BlobStore;
  pdf_engine : FormData → Exn + string;
  clock : Z;                          (* what [Date.now()] returns; moved by [wait] *)
  timers : list (Z * TimerTask);      (* pending [setTimeout] callbacks *)
  log : list Event                    (* what was attempted and shown, oldest first *)
}.

Definition with_app (f : AppState → AppState) (w : World) : World :=
  {| app := f (app w); localStorage := localStorage w; db := db w;
     storage := storage w; pdf_engine := pdf_engine w; clock := clock w;
     timers := timers w; log := log w |}.

Definition with_localStorage (l : LocalStorage) (w : World) : World :=
  {| app := app w; localStorage := l; db := db w;
     storage := storage w; pdf_engine := pdf_engine w; clock := clock w;
     timers := timers w; log := log w |}.

Definition with_db (c : Cloud) (w : World) : World :=
  {| app := app w; localStorage := localStorage w; db := c;
     storage := storage w; pdf_engine := pdf_engine w; clock := clock w;
     timers := timers w; log := log w |}.

Definition with_storage (b : BlobStore) (w : World) : World :=
  {| app := app w; localStorage := localStorage w; db := db w;
     storage := b; pdf_engine := pdf_engine w; clock := clock w;
     timers := timers w; log := log w |}.

Definition with_clock (t : Z) (w : World) : World :=
  {| app := app w; localStorage := localStorage w; db := db w;
     storage := storage w; pdf_engine := pdf_engine w; clock := t;
     timers := timers w; log := log w |}.

Definition with_timers (ts : list (Z * TimerTask)) (w : World) : World :=
  {| app := app w; localStorage := localStorage w; db := db w;
     storage := storage w; pdf_engine := pdf_engine w; clock := clock w;
     timers := ts; log := log w |}.

Definition with_log (l : list Event) (w : World) : World :=
  {| app := app w; localStorage := localStorage w; db := db w;
     storage := storage w; pdf_engine := pdf_engine w; clock := clock w;
     timers := timers w; log := l |}.

(** ** The handler monad: state of the world, and exceptions *)

Inductive Res (A : Type) :=
| Ok (a : A) (w : World)
| Throw (e : Exn) (w : World).
Arguments Ok {A} a w.
Arguments Throw {A} e w.

Definition M (A : Type) : Type := World → Res A.

#[global] Instance M_ret : MRet M := λ A a w, Ok a w.

#[global] Instance M_bind : MBind M := λ A B f m w,
  match m w with
  | Ok a w' => f a w'
  | Throw e w' => Throw e w'
  end.

Definition throw {A} (e : Exn) : M A := λ w, Throw e w.

(** [try { m } catch (e) { h e }]. *)
Definition try_catch {A} (m : M A) (h : Exn → M A) : M A := λ w,
  match m w with
  | Ok a w' => Ok a w'
  | Throw e w' => h e w'
  end.

(** [try { m } finally { f }]. *)
Definition try_finally {A} (m : M A) (f : M unit) : M A := λ w,
  match m w with
  | Ok a w' => match f w' with Ok _ w'' => Ok a w'' | Throw e w'' => Throw e w'' end
  | Throw e w' => match f w' with Ok _ w'' => Throw e w'' | Throw e' w'' => Throw e' w'' end
  end.

(** Calling an [async] function without awaiting it: its effects happen, a
    rejection has no handler.  The callee is run to completion at the call. *)
Definition spawn (m : M unit) : M unit := λ w,
  match m w with
  | Ok _ w' => Ok () w'
  | Throw e w' => Ok () (with_log (log w' ++ [UnhandledRejection e]) w')
  end.

Definition state_of {A} (r : Res A) : World :=
  match r with Ok _ w => w | Throw _ w => w end.

Definition emit (ev : Event) : M unit := λ w, Ok () (with_log (log w ++ [ev]) w).

Definition alert (msg : string) : M unit := emit (Alert msg).
Definition console (msg : string) (e : Exn) : M unit := emit (ConsoleLog msg e).

Definition Date_now : M Z := λ w, Ok (clock w) w.

Definition setTimeout (task : TimerTask) (ms : Z) : M unit := λ w,
  Ok () (with_timers (timers w ++ [(clock w + ms, task)]) w).

(** State setters of the component. *)
Definition setCurrentDocId (d : option string) : M unit := λ w,
  Ok () (with_app (λ s, {| currentUser := currentUser s; formData := formData s;
                            currentDocId := d; saveStatus := saveStatus s;
                            isSubmitting := isSubmitting s; history := history s |}) w).

Definition setSaveStatus (st : SaveStatus) : M unit := λ w,
  Ok () (with_app (λ s, {| currentUser := currentUser s; formData := formData s;
                            currentDocId := currentDocId s; saveStatus := st;
                            isSubmitting := isSubmitting s; history := history s |}) w).

Definition setIsSubmitting (b : bool) : M unit := λ w,
  Ok () (with_app (λ s, {| currentUser := currentUser s; formData := formData s;
                            currentDocId := currentDocId s; saveStatus := saveStatus s;
                            isSubmitting := b; history := history s |}) w).

Definition setHistory (h : list HistoryItem) : M unit := λ w,
  Ok () (with_app (λ s, {| currentUser := currentUser s; formData := formData s;
                            currentDocId := currentDocId s; saveStatus := saveStatus s;
                            isSubmitting := isSubmitting s; history := h |}) w).

Definition setFormData (d : FormData) : M unit := λ w,
  Ok () (with_app (λ s, {| currentUser := currentUser s; formData := d;
                            currentDocId := currentDocId s; saveStatus := saveStatus s;
                            isSubmitting := isSubmitting s; history := history s |}) w).

(** ** Collaborators *)

(** [JSON.parse(localStorage.getItem(LOCAL_REPORTS_KEY) || '[]')]. *)
Definition parse_reports_or_empty : M (list HistoryItem) := λ w,
  match ls_reports (localStorage w) with
  | NoEntry => Ok [] w
  | Garbled => Throw SyntaxError w
  | Reports l => Ok l w
  end.

(** [localStorage.setItem(LOCAL_REPORTS_KEY, JSON.stringify(reports))]. *)
Definition setItem_reports (reports : list HistoryItem) : M unit := λ w,
  if ls_full (localStorage w) then Throw QuotaExceededError w
  else Ok () (with_localStorage {| ls_reports := Reports reports; ls_full := false |} w).

(** The server replaces the [serverTimestamp()] sentinel of a write. *)
Definition resolve_timestamps (t : Z) (payload : FormData) : FormData :=
  (λ v, match v with VServerTimestamp => VTimestamp t | _ => v end) <$> payload.

Definition next_call (docs : list CloudDoc) (c : Cloud) : Cloud :=
  {| cloud_docs := docs; cloud_calls := S (cloud_calls c); cloud_up := cloud_up c;
     cloud_newid := cloud_newid c; cloud_clock := cloud_clock c |}.

Definition has_doc (id : string) (c : Cloud) : bool :=
  bool_decide (id ∈ doc_id <$> cloud_docs c).

(** [addDoc(collection(db, 'service_reports'), payload)]: the id of the new
    document, or a rejection. *)
Definition addDoc (payload : FormData) : M string := λ w,
  let c := db w in
  let n := cloud_calls c in
  let w := with_log (log w ++ [CloudCreate payload]) w in
  if cloud_up c n
  then Ok (cloud_newid c n)
          (with_db (next_call (cloud_docs c ++
                      [{| doc_id := cloud_newid c n;
                          doc_data := resolve_timestamps (cloud_clock c n) payload |}]) c) w)
  else Throw FirebaseError (with_db (next_call (cloud_docs c) c) w).

(** [updateDoc(doc(db, 'service_reports', id), payload)]: the given fields
    are written over those of the existing document, the others stay; a
    missing document is a rejection. *)
Definition updateDoc (id : string) (payload : FormData) : M unit := λ w,
  let c := db w in
  let n := cloud_calls c in
  let w := with_log (log w ++ [CloudUpdate id payload]) w in
  if cloud_up c n && has_doc id c
  then Ok ()
          (with_db (next_call
                      ((λ d, if decide (doc_id d = id)
                             then {| doc_id := id;
                                     doc_data := resolve_timestamps (cloud_clock c n) payload
                                                 ∪ doc_data d |}
                             else d) <$> cloud_docs c) c) w)
  else Throw FirebaseError (with_db (next_call (cloud_docs c) c) w).

(** [getDocs(query(collection(db, 'service_reports'), where('techId', '==', uid)))]. *)
Definition getDocs (uid : string) : M (list CloudDoc) := λ w,
  let c := db w in
  let n := cloud_calls c in
  let w := with_db (next_call (cloud_docs c) c) (with_log (log w ++ [CloudQuery uid]) w) in
  if cloud_up c n
  then Ok (filter (λ d, doc_data d !! "techId" = Some (VStr uid)) (cloud_docs c)) w
  else Throw FirebaseError w.

(** [uploadBytes(ref(storage, path), blob)]. *)
Definition uploadBytes (path : string) (blob : string) : M unit := λ w,
  let b := storage w in
  let w := with_log (log w ++ [BlobUpload path]) w in
  if blob_up b
  then Ok () (with_storage {| blob_enabled := blob_enabled b; blob_up := blob_up b;
                               blob_files := blob_files b ++ [(path, blob)] |} w)
  else Throw FirebaseError w.

(** [generatePDFBlob(data)]: the drawing itself belongs to the PDF library. *)
Definition generatePDFBlob (data : FormData) : M string := λ w,
  let w := with_log (log w ++ [PdfRender data]) w in
  match pdf_engine w data with
  | inl e => Throw e w
  | inr pdf => Ok pdf w
  end.

(** ** The handlers of [App]

    Every handler takes [s], the state of the render it was created in. *)

(** [doc.data().timestamp?.toMillis() || Date.now()]. *)
Definition cloud_timestamp (now : Z) (fields : FormData) : Exn + Z :=
  match fields !! "timestamp" with
  | None | Some VNull => inr now
  | Some (VTimestamp t) => inr (if t =? 0 then now else t)
  | Some _ => inl TypeError
  end.

(** [snapshot.docs.map(doc => ({ id, timestamp, data }))]. *)
Fixpoint cloud_items (now : Z) (docs : list CloudDoc) : Exn + list HistoryItem :=
  match docs with
  | [] => inr []
  | d :: docs' =>
      match cloud_timestamp now (doc_data d) with
      | inl e => inl e
      | inr t =>
          match cloud_items now docs' with
          | inl e => inl e
          | inr items =>
              inr ({| item_id := doc_id d; item_timestamp := t; item_data := doc_data d |} :: items)
          end
      end
  end.

Definition lift {A} (r : Exn + A) : M A := λ w,
  match r with inl e => Throw e w | inr a => Ok a w end.

Definition owned_by (uid : string) (item : HistoryItem) : bool :=
  bool_decide (item_data item !! "techId" = Some (VStr uid)).

Definition loadHistory (s : AppState) : M unit :=
  match currentUser s with
  | None => mret ()
  | Some u =>
      (* 1. Local Storage *)
      combinedHistory ← try_catch
        (λ w, match ls_reports (localStorage w) with
              | NoEntry => Ok [] w
              | Garbled => Throw SyntaxError w
              | Reports parsed => Ok (List.filter (owned_by (tech_id u)) parsed) w
              end)
        (λ e, console "Error loading local history" e;; mret []);
      (* 2. Cloud Firestore *)
      combinedHistory ← try_catch
        (snapshot ← getDocs (tech_id u);
         now ← Date_now;
         cloudItems ← lift (cloud_items now snapshot);
         mret (combinedHistory ++ cloudItems))
        (λ e, console "Failed to load cloud history, showing local only" e;;
              mret combinedHistory);
      (* Sort Newest first *)
      let combinedHistory := array_sort newest_first combinedHistory in
      (* Remove duplicates if any (based on ID) *)
      let uniqueHistory := unique_by_id combinedHistory in
      setHistory uniqueHistory
  end.

(** [{ ...data, techId: currentUser?.id }] as it comes back from JSON, which
    drops an [undefined] property. *)
Definition with_techId (user : option Technician) (data : FormData) : FormData :=
  match user with
  | Some u => <["techId" := VStr (tech_id u)]> data
  | None => delete "techId" data
  end.

Definition saveToLocalStorage (s : AppState) (data : FormData) (id : string) : M unit :=
  allReports ← parse_reports_or_empty;
  now ← Date_now;
  let newReport := {| item_id := id; item_timestamp := now;
                      item_data := with_techId (currentUser s) data |} in
  let allReports :=
    match findIndex (λ r, bool_decide (item_id r = id)) allReports with
    | Some existingIndex => <[existingIndex := newReport]> allReports
    | None => allReports ++ [newReport]
    end in
  setItem_reports allReports.

(** [!docId] for the bound id: [null] and the empty string are falsy. *)
Definition bound_id (d : option string) : option string :=
  match d with
  | Some id => if String.eqb id "" then None else Some id
  | None => None
  end.

Definition handleSave (s : AppState) : M unit :=
  match saveStatus s, currentUser s with
  | idle, Some u =>
      setSaveStatus saving;;
      (* Determine ID *)
      now ← Date_now;
      let docId := default (local_draft_id now) (bound_id (currentDocId s)) in
      setCurrentDocId (Some docId);;
      try_catch
        ((* Try Cloud First *)
         (if startsWith docId "local_"
          then
            docRef ← addDoc (<["timestamp" := VServerTimestamp]>
                              (<["techId" := VStr (tech_id u)]> (formData s)));
            (* Update to real ID *)
            setCurrentDocId (Some docRef)
          else
            (* Update existing cloud doc *)
            updateDoc docId (<["timestamp" := VServerTimestamp]> (formData s)));;
         setSaveStatus success)
        (λ e,
           console "Cloud save failed, saving locally" e;;
           (* Fallback to local *)
           saveToLocalStorage s (formData s) docId;;
           setSaveStatus local);;
      (* Reload history *)
      loadHistory s;;
      setTimeout ResetSaveStatus 2000
  | _, _ => mret ()
  end.

Definition nl : string := String (ascii_of_nat 10) EmptyString.

Definition handleOfflineSubmit (s : AppState) (pdf : string) (fileName : string) : M unit :=
  (* 1. Download *)
  emit (Download fileName pdf);;
  (* 2. Local Save (Backup) *)
  spawn (handleSave s);;
  (* 3. Email *)
  let subject := "Service Call Sheet - " +:+ display (formData s !! "shopName")
                 +:+ " - " +:+ display (formData s !! "date") in
  let body := "Service Call Sheet attached." +:+ nl +:+ nl
              +:+ "Tech: " +:+ display (formData s !! "techName") +:+ nl
              +:+ "Shop: " +:+ display (formData s !! "shopName") in
  setTimeout (OfferEmail subject body) 1000;;
  setIsSubmitting false.

Definition handleSubmit (s : AppState) : M unit :=
  if negb (truthy (formData s !! "techSignature"))
  then alert "Please sign the document before submitting."
  else
    match currentUser s with
    | None => alert "You must be logged in to submit."
    | Some u =>
        setIsSubmitting true;;
        try_finally
          (try_catch
             (shopName ← match formData s !! "shopName" with
                         | Some (VStr n) => mret n
                         | _ => throw TypeError
                         end;
              now ← Date_now;
              let fileName := "ServiceCall_" +:+ replace_spaces shopName
                              +:+ "_" +:+ pretty now +:+ ".pdf" in
              pdf ← generatePDFBlob (formData s);
              (* --- CLOUD UPLOAD ATTEMPT --- *)
              try_catch
                (λ w, if blob_enabled (storage w)
                      then uploadBytes ("service_sheets/" +:+ tech_id u +:+ "/" +:+ fileName) pdf w
                      else Ok () w)
                (λ e, console "Cloud upload skipped or failed" e);;
              (* --- OFFLINE / EMAIL HANDOFF --- *)
              handleOfflineSubmit s pdf fileName)
             (λ error,
                console "Submission failed" error;;
                alert ("Error generating document: " +:+ message error)))
          (setIsSubmitting false)
    end.

(** ** Driving the component *)

(** An event handler runs on the state of the current render. *)
Definition dispatch {A} (h : AppState → M A) : M A := λ w, h (app w) w.

Definition run_timer (task : TimerTask) : M unit :=
  match task with
  | ResetSaveStatus => setSaveStatus idle
  | OfferEmail subject body => emit (ConfirmEmail subject body)
  end.

(** Time passes: the clock advances and the callbacks that are due run,
    earliest first (in the order they were set when due together). *)
Definition wait (ms : Z) (w : World) : World :=
  let t := clock w + ms in
  let due := array_sort (λ a b, a.1 - b.1) (List.filter (λ p, p.1 <=? t) (timers w)) in
  let rest := List.filter (λ p, negb (p.1 <=? t)) (timers w) in
  foldl (λ w p, state_of (run_timer p.2 w)) (with_timers rest (with_clock t w)) due.

(** What the technician does between two renders. *)
Inductive Action :=
| Save                       (* the Save button *)
| Submit                     (* the Submit button *)
| Edit (data : FormData)     (* typing into the form *)
| Wait (ms : Z).

Definition step (a : Action) (w : World) : World :=
  match a with
  | Save => state_of (dispatch handleSave w)
  | Submit => state_of (dispatch handleSubmit w)
  | Edit data => state_of (setFormData data w)
  | Wait ms => wait ms w
  end.

(** Actions whose handlers run one after the other, each to its end before
    the next button is used.  What is done while a handler waits for the
    network is the matter of [session] below. *)
Definition run (actions : list Action) (w : World) : World :=
  foldl (λ w a, step a w) w actions.

(** ** A submission whose upload is in flight

    [handleSubmit] gives the page back to the browser at one place, [await
    uploadBytes(...)], and only when [storage && navigator.onLine]: until
    that request settles the technician can go on using the page (Submit
    itself is disabled by [isSubmitting]).  The rest of the handler then
    runs as the closure of the render the button was clicked in.  ([await
    generatePDFBlob(...)] does not leave the task: the drawing awaits
    nothing.) *)

(** What the suspended handler holds. *)
Record Pending := {
  pending_render : AppState;
  pending_user : Technician;
  pending_pdf : string;
  pending_fileName : string
}.

Definition upload_path (p : Pending) : string :=
  "service_sheets/" +:+ tech_id (pending_user p) +:+ "/" +:+ pending_fileName p.

(** The answer to the upload request. *)
Definition uploadBytes_settle (path : string) (blob : string) : M unit := λ w,
  let b := storage w in
  if blob_up b
  then Ok () (with_storage {| blob_enabled := blob_enabled b; blob_up := blob_up b;
                               blob_files := blob_files b ++ [(path, blob)] |} w)
  else Throw FirebaseError w.

(** [handleSubmit] up to the upload request: [Some p] when it is suspended
    there, [None] when it has run to its end. *)
Definition handleSubmit_begin (s : AppState) : M (option Pending) :=
  if negb (truthy (formData s !! "techSignature"))
  then alert "Please sign the document before submitting.";; mret None
  else
    match currentUser s with
    | None => alert "You must be logged in to submit.";; mret None
    | Some u =>
        setIsSubmitting true;;
        r ← try_catch
          (shopName ← match formData s !! "shopName" with
                      | Some (VStr n) => mret n
                      | _ => throw TypeError
                      end;
           now ← Date_now;
           let fileName := "ServiceCall_" +:+ replace_spaces shopName
                           +:+ "_" +:+ pretty now +:+ ".pdf" in
           pdf ← generatePDFBlob (formData s);
           let p := {| pending_render := s; pending_user := u;
                       pending_pdf := pdf; pending_fileName := fileName |} in
           ((λ w, if blob_enabled (storage w)
                  then (emit (BlobUpload (upload_path p));; mret (Some p)) w
                  else (handleOfflineSubmit s pdf fileName;; mret None) w)
            : M (option Pending)))
          (λ error,
             console "Submission failed" error;;
             alert ("Error generating document: " +:+ message error);;
             mret None);
        match r with
        | Some p => mret (Some p)
        | None => setIsSubmitting false;; mret None
        end
    end.

(** The rest of [handleSubmit], once the upload has settled. *)
Definition handleSubmit_resume (p : Pending) : M unit :=
  try_finally
    (try_catch
       (try_catch
          (uploadBytes_settle (upload_path p) (pending_pdf p))
          (λ e, console "Cloud upload skipped or failed" e);;
        handleOfflineSubmit (pending_render p) (pending_pdf p) (pending_fileName p))
       (λ error,
          console "Submission failed" error;;
          alert ("Error generating document: " +:+ message error)))
    (setIsSubmitting false).

(** What the technician does while the upload is in flight: the Submit
    button is disabled by [isSubmitting]. *)
Definition step_during (a : Action) (w : World) : World :=
  match a with
  | Submit => if isSubmitting (app w) then w else step Submit w
  | _ => step a w
  end.

Definition in_flight (during : list Action) (w : World) : World :=
  foldl (λ w a, step_during a w) w during.

(** A move of a session: an action on its own, or a submission together
    with what is done while its upload is in flight (when no upload is
    requested, the handler has ended and the actions simply follow). *)
Inductive Move :=
| Do (a : Action)
| SubmitAnd (during : list Action).

Definition move (m : Move) (w : World) : World :=
  match m with
  | Do a => step a w
  | SubmitAnd during =>
      match dispatch handleSubmit_begin w with
      | Ok (Some p) w1 => state_of (handleSubmit_resume p (in_flight during w1))
      | Ok None w1 | Throw _ w1 => run during w1
      end
  end.

Definition session (moves : list Move) (w : World) : World :=
  foldl (λ w m, move m w) w moves.


(** ** The history folder *)

(** [deleteDoc(doc(db, 'service_reports', id))]: an answered request removes
    the document if it is there; a rejected one changes nothing. *)
Definition deleteDoc (id : string) : M unit := λ w,
  let c := db w in
  let n := cloud_calls c in
  if cloud_up c n
  then Ok () (with_db (next_call
                         (List.filter (λ d, negb (bool_decide (doc_id d = id))) (cloud_docs c))
                         c) w)
  else Throw FirebaseError (with_db (next_call (cloud_docs c) c) w).

(** [confirmed] is the answer to [window.confirm]. *)
Definition deleteHistoryItem (s : AppState) (confirmed : bool) (id : string) : M unit :=
  if confirmed then
    (* Try Cloud Delete *)
    try_catch (deleteDoc id) (λ e, console "Cloud delete failed" e);;
    (* Try Local Delete *)
    allReports ← parse_reports_or_empty;
    let filtered := List.filter (λ r, negb (bool_decide (item_id r = id))) allReports in
    setItem_reports filtered;;
    (* Update UI *)
    (λ w, setHistory (List.filter (λ item, negb (bool_decide (item_id item = id)))
                        (history (app w))) w);;
    (* If deleting currently loaded doc, clear the ID *)
    if bool_decide (currentDocId s = Some id) then setCurrentDocId None else mret ()
  else mret ().

Definition loadHistoryItem (s : AppState) (confirmed : bool) (data : FormData) (id : string)
  : M unit :=
  if confirmed then
    setFormData data;;
    setCurrentDocId (Some id)   (* Set the ID so saving updates THIS document *)
  else mret ().

(** [setFormData(prev => ({ ...prev, [field]: value }))]. *)
Definition handleInputChange (field : string) (value : Value) : M unit := λ w,
  setFormData (<[field := value]> (formData (app w))) w.

(** [HistoryModal]: rendering the open folder sorts the array it was handed,
    in place, and shows one row per entry; a click on a row loads the entry
    and its bin deletes it. *)
Definition HistoryModal_rows : M (list HistoryItem) := λ w,
  let rows := array_sort newest_first (history (app w)) in
  match setHistory rows w with
  | Ok _ w' => Ok rows w'
  | Throw e w' => Throw e w'
  end.

(** The effect that follows a change of [currentUser]. *)
Definition on_user_change (s : AppState) : M unit :=
  match currentUser s with
  | Some _ => loadHistory s
  | None => setHistory []
  end.

#[global] Instance Technician_eq_dec : EqDecision Technician.
Proof. solve_decision. Defined.

(** * The login screen ([components/LoginScreen.tsx]) *)

(** The part of the component the PIN form reads and writes: which view is
    shown, the selected profile, the mode of the form, and its input. *)
Module LoginScreen.

Inductive View := list_view | create_view | login_view.
Inductive LoginMode := pin | admin_override | new_pin.

Record State := {
  view : View;
  selectedUser : option Technician;
  loginMode : LoginMode;
  pinInput : string;
  error : string
}.

#[global] Instance View_eq_dec : EqDecision View.
Proof. solve_decision. Defined.
#[global] Instance LoginMode_eq_dec : EqDecision LoginMode.
Proof. solve_decision. Defined.

(** The values [useState] starts from. *)
Definition initial : State :=
  {| view := list_view; selectedUser := None; loginMode := pin;
     pinInput := ""; error := "" |}.

(** Default Master Code for Reset *)
Definition MASTER_CODE : string := "888888".

(** [{ ...selectedUser, pin: pinInput }] *)
Definition with_pin (p : string) (u : Technician) : Technician :=
  {| tech_id := tech_id u; tech_name := tech_name u;
     tech_vehicleNumber := tech_vehicleNumber u; tech_pin := p |}.

Definition initiateLogin (user : Technician) (st : State) : State :=
  {| view := login_view; selectedUser := Some user; loginMode := pin;
     pinInput := ""; error := "" |}.

(** The second component is the technician [onLogin] is called with, if it
    is called. *)
Definition handlePinSubmit (st : State) : State * option Technician :=
  match selectedUser st with
  | None =>
      ({| view := view st; selectedUser := None; loginMode := loginMode st;
          pinInput := pinInput st; error := "" |}, None)
  | Some u =>
      match loginMode st with
      | pin =>
          (* 1. Normal Login *)
          if bool_decide (pinInput st = tech_pin u)
          then ({| view := view st; selectedUser := Some u; loginMode := pin;
                   pinInput := pinInput st; error := "" |}, Some u)
          else ({| view := view st; selectedUser := Some u; loginMode := pin;
                   pinInput := ""; error := "Incorrect PIN" |}, None)
      | admin_override =>
          (* 2. Admin Override Check *)
          if bool_decide (pinInput st = MASTER_CODE)
          then ({| view := view st; selectedUser := Some u; loginMode := new_pin;
                   pinInput := ""; error := "" |}, None)
          else ({| view := view st; selectedUser := Some u; loginMode := admin_override;
                   pinInput := ""; error := "Invalid Manager Code" |}, None)
      | new_pin =>
          (* 3. Setting New PIN *)
          if (String.length (pinInput st) <? 4)%nat
          then ({| view := view st; selectedUser := Some u; loginMode := new_pin;
                   pinInput := pinInput st; error := "PIN must be 4-6 digits" |}, None)
          else ({| view := view st; selectedUser := Some u; loginMode := new_pin;
                   pinInput := pinInput st; error := "" |},
                Some (with_pin (pinInput st) u))
      end
  end.

(** The [onClick] of "Forgot PIN?". *)
Definition forgotPin (st : State) : State :=
  {| view := view st; selectedUser := selectedUser st; loginMode := admin_override;
     pinInput := ""; error := "" |}.

Definition setView (v : View) (st : State) : State :=
  {| view := v; selectedUser := selectedUser st; loginMode := loginMode st;
     pinInput := pinInput st; error := error st |}.

Definition setPinInput (value : string) (st : State) : State :=
  {| view := view st; selectedUser := selectedUser st; loginMode := loginMode st;
     pinInput := value; error := error st |}.

(** The controls of the list and of the PIN form. *)
Inductive Control :=
  | ClickProfile (user : Technician)
  | ClickNewProfile
  | ClickBack
  | TypePin (value : string)
  | ClickEnter
  | ClickCancel
  | ClickForgotPin.

Definition is_ClickProfile (c : Control) : bool :=
  match c with ClickProfile _ => true | _ => false end.

(** Which controls the screen shows, [users] being the profiles of the list
    once it has loaded. *)
Definition rendered (users : list Technician) (st : State) (c : Control) : bool :=
  match c with
  | ClickProfile user => bool_decide (view st = list_view) && bool_decide (user ∈ users)
  | ClickNewProfile => bool_decide (view st = list_view)
  | ClickBack => bool_decide (view st = create_view)
  | TypePin _ | ClickEnter | ClickCancel =>
      bool_decide (view st = login_view) && bool_decide (is_Some (selectedUser st))
  | ClickForgotPin =>
      bool_decide (view st = login_view) && bool_decide (is_Some (selectedUser st))
      && bool_decide (loginMode st = pin)
  end.

Definition click (st : State) (c : Control) : State * option Technician :=
  match c with
  | ClickProfile user => (initiateLogin user st, None)
  | ClickNewProfile => (setView create_view st, None)
  | ClickBack | ClickCancel => (setView list_view st, None)
  | TypePin value => (setPinInput value st, None)
  | ClickEnter => handlePinSubmit st
  | ClickForgotPin => (forgotPin st, None)
  end.

(** The state after a sequence of controls, and whether each of them was on
    the screen when it was used. *)
Fixpoint run (st : State) (cs : list Control) : State :=
  match cs with
  | [] => st
  | c :: cs' => run (click st c).1 cs'
  end.

Fixpoint possible (users : list Technician) (st : State) (cs : list Control) : bool :=
  match cs with
  | [] => true
  | c :: cs' => rendered users st c && possible users (click st c).1 cs'
  end.

End LoginScreen.

(** * The time picker ([components/TimePicker.tsx], the [TimePicker] component) *)

Module TimePicker.

(** The numbers of the picker.  A JavaScript number is a double: it holds
    the integers up to [2^53] in magnitude exactly, and those are [Num].
    [Huge] stands for the double of an integer beyond that range, and for
    what is computed from one; its digits are not modelled, [negative] is
    its sign. *)
Inductive Number := NaN | Num (n : Z) | Huge (negative : bool).
Inductive Period := AM | PM.

Record State := {
  selectedHour : Number;
  selectedMinute : Number;
  period : Period
}.

#[global] Instance Number_eq_dec : EqDecision Number.
Proof. solve_decision. Defined.
#[global] Instance Period_eq_dec : EqDecision Period.
Proof. solve_decision. Defined.
#[global] Instance State_eq_dec : EqDecision State.
Proof. solve_decision. Defined.

(** The values [useState] starts from, also the default of an empty field. *)
Definition initial : State :=
  {| selectedHour := Num 12; selectedMinute := Num 0; period := PM |}.

(** [\d] *)
Definition is_digit (c : ascii) : bool :=
  let n := nat_of_ascii c in (48 <=? n)%nat && (n <=? 57)%nat.

(** The longest run of digits a string starts with, and what follows it. *)
Fixpoint digits (s : string) : string * string :=
  match s with
  | EmptyString => (EmptyString, EmptyString)
  | String c s' =>
      if is_digit c then (String c (digits s').1, (digits s').2)
      else (EmptyString, s)
  end.

Definition digit_value (c : ascii) : Z := Z.of_nat (nat_of_ascii c) - 48.

Fixpoint decimal_go (acc : Z) (s : string) : Z :=
  match s with
  | EmptyString => acc
  | String c s' => decimal_go (10 * acc + digit_value c) s'
  end.

Definition decimal (s : string) : Z := decimal_go 0 s.

(** The double of an integer: itself up to [2^53] in magnitude. *)
Definition number (n : Z) : Number :=
  if Z.abs n <=? 2 ^ 53 then Num n else Huge (n <? 0).

Fixpoint trimStart (s : string) : string :=
  match s with
  | String c s' => if is_space c then trimStart s' else s
  | EmptyString => EmptyString
  end.

(** [parseInt(s, 10)]: leading white space, a sign, then the longest run of
    digits; [NaN] without a digit, and for [undefined] ([None]). *)
Definition parseInt (s : option string) : Number :=
  match s with
  | None => NaN
  | Some s =>
      let s := trimStart s in
      let '(sign, s) := match s with
                        | String "-" r => (-1, r)
                        | String "+" r => (1, r)
                        | _ => (1, s)
                        end in
      let d := (digits s).1 in
      if bool_decide (d = "") then NaN else number (sign * decimal d)
  end.

(** [(AM|PM)] under the [i] flag, upper-cased. *)
Definition period_at (s : string) : option Period :=
  match s with
  | String c1 (String c2 _) =>
      if bool_decide (c2 = "M"%char ∨ c2 = "m"%char) then
        if bool_decide (c1 = "A"%char ∨ c1 = "a"%char) then Some AM
        else if bool_decide (c1 = "P"%char ∨ c1 = "p"%char) then Some PM
        else None
      else None
  | _ => None
  end.

(** [/(\d+):(\d+)\s?(AM|PM)/i] matched at the start of [s].  Giving back a
    digit of a group, or the optional space, never helps: what follows
    would have to be a colon, a space or a letter. *)
Definition match_here (s : string) : option (string * string * Period) :=
  let h := (digits s).1 in
  if bool_decide (h = "") then None else
  match (digits s).2 with
  | String ":" r1 =>
      let m := (digits r1).1 in
      if bool_decide (m = "") then None else
      let r2 := (digits r1).2 in
      let r3 := match r2 with
                | String c r' => if is_space c then r' else r2
                | EmptyString => r2
                end in
      match period_at r3 with
      | Some p => Some (h, m, p)
      | None => None
      end
  | _ => None
  end.

(** [initialValue.match(...)]: the leftmost match. *)
Fixpoint amPmMatch (s : string) : option (string * string * Period) :=
  match match_here s with
  | Some r => Some r
  | None => match s with
            | EmptyString => None
            | String _ s' => amPmMatch s'
            end
  end.

(** The piece before the first colon, and what follows that colon if there
    is one. *)
Fixpoint until_colon (s : string) : string * option string :=
  match s with
  | EmptyString => (EmptyString, None)
  | String c s' =>
      if bool_decide (c = ":"%char) then (EmptyString, Some s')
      else (String c (until_colon s').1, (until_colon s').2)
  end.

(** [const [hStr, mStr] = initialValue.split(':')] *)
Definition split_colon (s : string) : string * option string :=
  ((until_colon s).1,
   match (until_colon s).2 with
   | Some r => Some (until_colon r).1
   | None => None
   end).

(** The effect that runs when the picker opens; [None] is no initial value. *)
Definition on_open (initialValue : option string) (st : State) : State :=
  match initialValue with
  | Some v =>
      if bool_decide (v = "") then initial else
      (* Try parsing "h:mm A" first *)
      match amPmMatch v with
      | Some (h, m, p) =>
          {| selectedHour := parseInt (Some h); selectedMinute := parseInt (Some m);
             period := p |}
      | None =>
          (* Fallback to "HH:mm" *)
          match parseInt (Some (split_colon v).1), parseInt (split_colon v).2 with
          | NaN, _ | _, NaN => st
          | Num h, m =>
              let isPm := 12 <=? h in
              let h := if 12 <? h then h - 12 else h in
              let h := if h =? 0 then 12 else h in
              {| selectedHour := Num h; selectedMinute := m;
                 period := if isPm then PM else AM |}
          | Huge negative, m =>
              (* beyond [2^53]: [h >= 12] by the sign, [h - 12] as large, never [0] *)
              {| selectedHour := Huge negative; selectedMinute := m;
                 period := if negative then AM else PM |}
          end
      end
  | None => initial
  end.

(** [String(x)]: the decimal numeral of an integer up to [2^53] in
    magnitude; the digits of a larger double are not modelled ([None]). *)
Definition toString (x : Number) : option string :=
  match x with
  | NaN => Some "NaN"
  | Num n => if Z.abs n <=? 2 ^ 53 then Some (pretty n) else None
  | Huge _ => None
  end.

Fixpoint repeat_char (c : ascii) (n : nat) : string :=
  match n with O => EmptyString | S n' => String c (repeat_char c n') end.

(** [s.padStart(n, c)] for a one-character filler. *)
Definition padStart (n : nat) (c : ascii) (s : string) : string :=
  repeat_char c (n - String.length s) +:+ s.

Definition period_name (p : Period) : string :=
  match p with AM => "AM" | PM => "PM" end.

(** The string [handleSave] hands to [onSave] ([None] where the digits of
    the hour or the minute are not modelled). *)
Definition handleSave (st : State) : option string :=
  match toString (selectedHour st), toString (selectedMinute st) with
  | Some hour, Some minute =>
      Some (hour +:+ ":" +:+ padStart 2 "0" minute +:+ " " +:+ period_name (period st))
  | _, _ => None
  end.

End TimePicker.
(** * Properties *)

(** ** Vocabulary of the statements *)

(** Newest first: no entry is older than one that follows it. *)
Definition newer_or_same (a b : HistoryItem) : Prop :=
  item_timestamp b ≤ item_timestamp a.

(** The requests that write to the cloud collection. *)
Definition is_cloud_write (e : Event) : bool :=
  match e with CloudCreate _ | CloudUpdate _ _ => true | _ => false end.

Definition is_alert (e : Event) : bool :=
  match e with Alert _ => true | _ => false end.

(** The id a save works under: the bound one, or else a fresh local-draft id. *)
Definition save_id (s : AppState) (now : Z) : string :=
  default (local_draft_id now) (bound_id (currentDocId s)).

Definition docId_of (w : World) : string := save_id (app w) (clock w).

(** The array [saveToLocalStorage] starts from. *)
Definition reports_of (l : LocalStorage) : list HistoryItem :=
  match ls_reports l with Reports reports => reports | _ => [] end.

(** The array [saveToLocalStorage] writes back: the report replaces the
    first one with its id, or is pushed at the end. *)
Definition upsert (r : HistoryItem) (reports : list HistoryItem) : list HistoryItem :=
  match findIndex (λ x, bool_decide (item_id x = item_id r)) reports with
  | Some existingIndex => <[existingIndex := r]> reports
  | None => reports ++ [r]
  end.

(** The report a local fallback writes. *)
Definition fallback_report (s : AppState) (now : Z) : HistoryItem :=
  {| item_id := save_id s now; item_timestamp := now;
     item_data := with_techId (currentUser s) (formData s) |}.

Definition local_report (w : World) : HistoryItem := fallback_report (app w) (clock w).

(** The merged view [loadHistory] computes from its two halves. *)
Definition merged_view (combined : list HistoryItem) : list HistoryItem :=
  unique_by_id (array_sort newest_first combined).

(** The two halves of the list [loadHistory] merges. *)
Definition local_part (uid : string) (w : World) : list HistoryItem :=
  match ls_reports (localStorage w) with
  | Reports parsed => List.filter (owned_by uid) parsed
  | _ => []
  end.

Definition cloud_part (uid : string) (w : World) : list HistoryItem :=
  if cloud_up (db w) (cloud_calls (db w))
  then match cloud_items (clock w)
               (filter (λ d, doc_data d !! "techId" = Some (VStr uid)) (cloud_docs (db w))) with
       | inr items => items
       | inl _ => []
       end
  else [].

(** Whether the cloud takes the write a save under [id] attempts as its
    request number [n]: a create needs an answer, an update also needs the
    document to exist. *)
Definition cloud_takes_write (id : string) (c : Cloud) : bool :=
  if startsWith id "local_" then cloud_up c (cloud_calls c)
  else cloud_up c (cloud_calls c) && has_doc id c.

(** The write request a save under [id] sends. *)
Definition write_request (u : Technician) (form : FormData) (id : string) : Event :=
  if startsWith id "local_"
  then CloudCreate (<["timestamp" := VServerTimestamp]> (<["techId" := VStr (tech_id u)]> form))
  else CloudUpdate id (<["timestamp" := VServerTimestamp]> form).

(** The local store can be read and written. *)
Definition local_storage_works (l : LocalStorage) : Prop :=
  ls_full l = false ∧ ls_reports l ≠ Garbled.

(** The cloud never answers. *)
Definition cloud_down (w : World) : Prop := ∀ n, cloud_up (db w) n = false.

(** Two worlds with the same documents: they agree on both stores, on the
    clock and on the session, and may differ in the submit flag, the blob
    store, the pending timers and the log. *)
Definition same_documents (w1 w2 : World) : Prop :=
  localStorage w1 = localStorage w2 ∧ db w1 = db w2 ∧ clock w1 = clock w2 ∧
  currentUser (app w1) = currentUser (app w2) ∧
  formData (app w1) = formData (app w2) ∧
  currentDocId (app w1) = currentDocId (app w2) ∧
  saveStatus (app w1) = saveStatus (app w2) ∧
  history (app w1) = history (app w2).

(** ** Sample session *)

Definition reon : Technician :=
  {| tech_id := "1"; tech_name := "Reon Samuel";
     tech_vehicleNumber := "C-104"; tech_pin := "123456" |}.

Definition acme_form : FormData :=
  <["shopName" := VStr "Acme"]> (<["techSignature" := VNull]> ∅).

Definition acme_signed : FormData :=
  <["techSignature" := VStr "data:image/png;base64,AAAA"]> acme_form.

Definition sample_cloud (docs : list CloudDoc) (up : nat → bool) : Cloud :=
  {| cloud_docs := docs; cloud_calls := 0; cloud_up := up;
     cloud_newid := λ n, "doc" +:+ pretty n;
     cloud_clock := λ n, 5000 + Z.of_nat n |}.

Definition sample_world (s : AppState) (l : LocalStorage) (c : Cloud) : World :=
  {| app := s; localStorage := l; db := c;
     storage := {| blob_enabled := true; blob_up := false; blob_files := [] |};
     pdf_engine := λ _, inr "%PDF-1.3"; clock := 1000; timers := []; log := [] |}.

Definition fresh_session (form : FormData) : AppState :=
  {| currentUser := Some reon; formData := form; currentDocId := None;
     saveStatus := idle; isSubmitting := false; history := [] |}.

Definition empty_storage : LocalStorage := {| ls_reports := NoEntry; ls_full := false |}.

Definition full_storage : LocalStorage := {| ls_reports := NoEntry; ls_full := true |}.

Definition always_up : nat → bool := λ _, true.
Definition always_down : nat → bool := λ _, false.

(** The signed form, edited after it was saved. *)
Definition acme_corrected : FormData := <["shopName" := VStr "Acme Ltd"]> acme_signed.

(** A document of another technician, bound in this one's session. *)
Definition foreign_doc : CloudDoc :=
  {| doc_id := "abc";
     doc_data := <["techId" := VStr "2"]> (<["timestamp" := VTimestamp 4000]> acme_form) |}.


(** A local report and a cloud document with one id. *)
Definition stale_local : HistoryItem :=
  {| item_id := "X"; item_timestamp := 30;
     item_data := <["techId" := VStr "1"]> acme_form |}.

Definition stale_cloud : CloudDoc :=
  {| doc_id := "X";
     doc_data := <["techId" := VStr "1"]> (<["timestamp" := VTimestamp 10]> acme_form) |}.

(** A report the technician saved to the cloud from another device. *)
Definition other_report : CloudDoc :=
  {| doc_id := "Y";
     doc_data := <["techId" := VStr "1"]> (<["timestamp" := VTimestamp 6000]>
                   (<["shopName" := VStr "Bolt"]> ∅)) |}.

(** The cloud rejects exactly its request number [k]. *)
Definition down_at (k : nat) : nat → bool := λ n, negb (n =? k)%nat.

(** The cloud rejects its first [k] requests. *)
Definition down_until (k : nat) : nat → bool := λ n, (k <=? n)%nat.

(** ** The documents of a technician *)




(** ** Moves of a session *)



(** ** A sentence of the specification, as it is written *)

(** "Every call to submit that passes the signature precondition ... even
    with the blob store and the cloud document store failing on every call
    ... produces the deliverable artifact, persists a record of the submitted
    form to local storage, and reports success". *)
Definition submit_always_persists : Prop :=
  ∀ (w : World),
    truthy (formData (app w) !! "techSignature") = true →
    (∀ n, cloud_up (db w) n = false) → blob_up (storage w) = false →
    let w' := step Submit w in
    (∃ fileName pdf, Download fileName pdf ∈ log w') ∧
    (∃ r, r ∈ reports_of (localStorage w') ∧
          item_data r = with_techId (currentUser (app w)) (formData (app w))) ∧
    List.filter is_alert (drop (length (log w)) (log w')) = [].

(** ** Tactics *)

#[local] Arguments bound_id : simpl never.
#[local] Arguments startsWith : simpl never.
#[local] Arguments local_draft_id : simpl never.
#[local] Arguments array_sort : simpl never.
#[local] Arguments unique_by_id : simpl never.
#[local] Arguments cloud_items : simpl never.
#[local] Arguments has_doc : simpl never.
#[local] Arguments resolve_timestamps : simpl never.
#[local] Arguments with_techId : simpl never.
#[local] Arguments findIndex : simpl never.
#[local] Arguments replace_spaces : simpl never.
#[local] Arguments display : simpl never.
#[local] Arguments truthy : simpl never.
#[local] Arguments message : simpl never.
#[local] Arguments upsert : simpl never.
#[local] Arguments save_id : simpl never.
#[local] Arguments write_request : simpl never.
#[local] Arguments merged_view : simpl never.

Ltac unfold_handlers :=
  unfold dispatch, handleSubmit, handleOfflineSubmit, handleSave, loadHistory,
    saveToLocalStorage, generatePDFBlob, uploadBytes, try_catch, try_finally, spawn,
    setSaveStatus, setCurrentDocId, setHistory, setIsSubmitting, setFormData,
    setTimeout, Date_now, console, alert, emit,
    addDoc, updateDoc, getDocs, parse_reports_or_empty, setItem_reports, lift, throw,
    mbind, M_bind, mret, M_ret in *.

(** The same for a submission, its save left folded. *)
Ltac unfold_submit :=
  unfold dispatch, handleSubmit, handleOfflineSubmit, generatePDFBlob, uploadBytes,
    try_catch, try_finally, setIsSubmitting, setTimeout, Date_now, console, alert, emit,
    throw, mbind, M_bind, mret, M_ret in *.

Ltac head_is_match x :=
  lazymatch x with
  | match _ with _ => _ end => idtac
  | ?f _ => head_is_match f
  end.

(** Case analysis on whatever the handler branches on next. *)
Ltac handler_cases :=
  repeat (simpl in *;
          match goal with
          | |- context [match ?x with _ => _ end] =>
              tryif head_is_match x then fail else destruct x eqn:?
          end);
  simpl in *.

Ltac destruct_world w :=
  destruct w as [[user form docid status sub hist] ls [docs calls up newid clk]
                   blob pdf clock timers log];
  simpl in *.


(** ** Vocabulary of the further statements *)

(** The history entry made of a cloud document. *)
Definition item_of (now : Z) (d : CloudDoc) : HistoryItem :=
  {| item_id := doc_id d;
     item_timestamp := match cloud_timestamp now (doc_data d) with
                       | inr t => t
                       | inl _ => now
                       end;
     item_data := doc_data d |}.

(** The timestamp of a cloud document can be turned into milliseconds. *)
Definition readable (d : CloudDoc) : Prop :=
  match doc_data d !! "timestamp" with
  | None | Some VNull | Some (VTimestamp _) => True
  | Some _ => False
  end.

#[global] Instance readable_dec d : Decision (readable d).
Proof. unfold readable. destruct (doc_data d !! "timestamp") as [[]|]; apply _. Defined.

(** The characters of a string. *)
Fixpoint chars (s : string) : list ascii :=
  match s with
  | EmptyString => []
  | String c s' => c :: chars s'
  end.

#[local] Arguments cloud_timestamp : simpl never.




(** An array without the entries of id [id]. *)
Definition without (id : string) (items : list HistoryItem) : list HistoryItem :=
  List.filter (λ r, negb (bool_decide (item_id r = id))) items.

Definition docs_without (id : string) (docs : list CloudDoc) : list CloudDoc :=
  List.filter (λ d, negb (bool_decide (doc_id d = id))) docs.

Ltac unfold_folder :=
  unfold dispatch, deleteHistoryItem, deleteDoc, loadHistoryItem, handleInputChange,
    HistoryModal_rows, on_user_change, try_catch, setCurrentDocId, setHistory, setFormData,
    console, emit, parse_reports_or_empty, setItem_reports, mbind, M_bind, mret, M_ret in *.


(** ** The login screen *)

(** What the state of the PIN form records of the controls used so far:
    the selected profile was clicked in the list, and since that click the
    input was typed, "Forgot PIN?" was used if the form left the PIN mode,
    and the manager code was typed if the form asks for a new PIN. *)
Definition pin_form_inv (users : list Technician) (cs : list LoginScreen.Control)
    (st : LoginScreen.State) : Prop :=
  match LoginScreen.selectedUser st with
  | None => True
  | Some u =>
      ∃ pre post, cs = pre ++ LoginScreen.ClickProfile u :: post ∧ u ∈ users ∧
        Forall (λ c, LoginScreen.is_ClickProfile c = false) post ∧
        (LoginScreen.pinInput st = "" ∨
         LoginScreen.TypePin (LoginScreen.pinInput st) ∈ post) ∧
        (LoginScreen.loginMode st ≠ LoginScreen.pin → LoginScreen.ClickForgotPin ∈ post) ∧
        (LoginScreen.loginMode st = LoginScreen.new_pin →
         LoginScreen.TypePin LoginScreen.MASTER_CODE ∈ post)
  end.
(** ** Arrays: sorting and deduplication *)

Section SortFacts.
Context {A : Type} (cmp : A → A → Z).

Lemma sort_insert_Permutation x l : sort_insert cmp x l ≡ₚ x :: l.
Proof.
  induction l as [|y l IH]; simpl; [done|].
  destruct (0 <? cmp x y); [|done].
  rewrite IH. apply Permutation_swap.
Qed.

Lemma array_sort_Permutation l : array_sort cmp l ≡ₚ l.
Proof.
  induction l as [|x l IH]; [done|].
  change (array_sort cmp (x :: l)) with (sort_insert cmp x (array_sort cmp l)).
  by rewrite sort_insert_Permutation, IH.
Qed.

Lemma elem_of_array_sort x l : x ∈ array_sort cmp l ↔ x ∈ l.
Proof. by rewrite array_sort_Permutation. Qed.
End SortFacts.

Lemma sort_insert_newest_first x l :
  StronglySorted newer_or_same l →
  StronglySorted newer_or_same (sort_insert newest_first x l).
Proof.
  induction 1 as [|y l Hl IH Hy]; simpl.
  - repeat constructor.
  - unfold newest_first at 1. destruct (Z.ltb_spec 0 (item_timestamp y - item_timestamp x)).
    + constructor; [done|].
      rewrite sort_insert_Permutation. constructor; [|done].
      unfold newer_or_same. lia.
    + constructor; [by constructor|].
      constructor; [unfold newer_or_same; lia|].
      eapply Forall_impl; [exact Hy|]. unfold newer_or_same. intros; lia.
Qed.

Lemma array_sort_newest_first l :
  StronglySorted newer_or_same (array_sort newest_first l).
Proof.
  induction l as [|x l IH]; [constructor|].
  change (array_sort newest_first (x :: l))
    with (sort_insert newest_first x (array_sort newest_first l)).
  by apply sort_insert_newest_first.
Qed.

Section MapFacts.
Context {A : Type}.
Implicit Types (m acc entries : list (string * A)) (k : string) (v : A).

Lemma Map_set_fresh k v m : k ∉ m.*1 → Map_set k v m = m ++ [(k, v)].
Proof.
  induction m as [|[k' v'] m IH]; csimpl; [done|].
  rewrite not_elem_of_cons. intros [Hne Hk].
  destruct (decide (k' = k)); [congruence|]. by rewrite IH.
Qed.

Lemma Map_set_keys k v m :
  (Map_set k v m).*1 = if decide (k ∈ m.*1) then m.*1 else m.*1 ++ [k].
Proof.
  induction m as [|[k' v'] m IH]; csimpl.
  - by destruct (decide (k ∈ [])).
  - destruct (decide (k' = k)) as [->|Hne]; csimpl.
    + destruct (decide (k ∈ k :: m.*1)) as [|H]; [done|].
      exfalso. apply H. by left.
    + rewrite IH. destruct (decide (k ∈ m.*1)) as [Hin|Hin].
      * destruct (decide (k ∈ k' :: m.*1)) as [|H]; [done|].
        exfalso. apply H. by right.
      * destruct (decide (k ∈ k' :: m.*1)) as [H|]; [|done].
        apply elem_of_cons in H as [->|]; done.
Qed.

Lemma Map_set_NoDup k v m : NoDup m.*1 → NoDup (Map_set k v m).*1.
Proof.
  intros Hm. rewrite Map_set_keys. destruct (decide (k ∈ m.*1)); [done|].
  apply NoDup_app. split_and!; [done| |apply NoDup_singleton].
  intros x Hx ->%list_elem_of_singleton. done.
Qed.

Lemma elem_of_Map_set_keys k v m k0 :
  k0 ∈ (Map_set k v m).*1 ↔ k0 = k ∨ k0 ∈ m.*1.
Proof.
  rewrite Map_set_keys. destruct (decide (k ∈ m.*1)).
  - naive_solver.
  - rewrite elem_of_app, list_elem_of_singleton. naive_solver.
Qed.

Lemma elem_of_Map_set kv k v m :
  kv ∈ Map_set k v m → kv = (k, v) ∨ kv ∈ m.
Proof.
  induction m as [|[k' v'] m IH]; csimpl.
  - rewrite list_elem_of_singleton. auto.
  - destruct (decide (k' = k)) as [->|Hne]; rewrite !elem_of_cons; naive_solver.
Qed.

Lemma new_Map_from_NoDup entries acc :
  NoDup acc.*1 →
  NoDup (fold_left (λ m kv, Map_set kv.1 kv.2 m) entries acc).*1.
Proof.
  revert acc. induction entries as [|[k v] es IH]; intros acc Hacc; csimpl; [done|].
  apply IH. by apply Map_set_NoDup.
Qed.

Lemma new_Map_NoDup entries : NoDup (new_Map entries).*1.
Proof. apply new_Map_from_NoDup. constructor. Qed.

Lemma new_Map_from_keys entries acc k :
  k ∈ (fold_left (λ m kv, Map_set kv.1 kv.2 m) entries acc).*1 ↔ k ∈ acc.*1 ∨ k ∈ entries.*1.
Proof.
  revert acc. induction entries as [|[k' v'] es IH]; intros acc; csimpl.
  - rewrite elem_of_nil. naive_solver.
  - rewrite IH, elem_of_Map_set_keys, elem_of_cons. naive_solver.
Qed.

Lemma new_Map_keys entries k : k ∈ (new_Map entries).*1 ↔ k ∈ entries.*1.
Proof.
  unfold new_Map. rewrite new_Map_from_keys. csimpl. rewrite elem_of_nil. naive_solver.
Qed.

Lemma new_Map_from_entries entries acc kv :
  kv ∈ fold_left (λ m kv, Map_set kv.1 kv.2 m) entries acc → kv ∈ acc ∨ kv ∈ entries.
Proof.
  revert acc. induction entries as [|[k' v'] es IH]; intros acc; csimpl; [auto|].
  intros [H|H]%IH; [|by right; right].
  apply elem_of_Map_set in H as [->|H]; [right; by left|by left].
Qed.

Lemma new_Map_entries entries kv : kv ∈ new_Map entries → kv ∈ entries.
Proof.
  intros [H|H]%new_Map_from_entries; [by apply elem_of_nil in H|done].
Qed.

Lemma new_Map_from_distinct entries acc :
  NoDup (acc ++ entries).*1 →
  fold_left (λ m kv, Map_set kv.1 kv.2 m) entries acc = acc ++ entries.
Proof.
  revert acc. induction entries as [|[k v] es IH]; intros acc Hnd; csimpl.
  - by rewrite app_nil_r.
  - rewrite Map_set_fresh.
    + rewrite IH; rewrite <- app_assoc; done.
    + rewrite fmap_app in Hnd. apply NoDup_app in Hnd as (_ & Hdisj & _).
      intros Hk. apply (Hdisj k Hk). csimpl. by left.
Qed.

Lemma new_Map_distinct entries : NoDup entries.*1 → new_Map entries = entries.
Proof. intros H. unfold new_Map. by rewrite new_Map_from_distinct. Qed.
End MapFacts.

Lemma unique_by_id_ids items :
  item_id <$> unique_by_id items
  = (new_Map ((λ item, (item_id item, item)) <$> items)).*1.
Proof.
  unfold unique_by_id, Map_values.
  apply list_eq. intros i. rewrite !list_lookup_fmap.
  destruct (new_Map _ !! i) as [[k v]|] eqn:Hi; simpl; [|done].
  apply list_elem_of_lookup_2, new_Map_entries, list_elem_of_fmap in Hi as (x & [= -> ->] & _).
  done.
Qed.

Lemma unique_by_id_NoDup items : NoDup (item_id <$> unique_by_id items).
Proof. rewrite unique_by_id_ids. apply new_Map_NoDup. Qed.

Lemma elem_of_unique_by_id_ids items id :
  id ∈ item_id <$> unique_by_id items ↔ id ∈ item_id <$> items.
Proof.
  rewrite unique_by_id_ids, new_Map_keys, <- list_fmap_compose. done.
Qed.

Lemma elem_of_unique_by_id items x : x ∈ unique_by_id items → x ∈ items.
Proof.
  unfold unique_by_id, Map_values. intros ([k v] & -> & H)%list_elem_of_fmap.
  apply new_Map_entries, list_elem_of_fmap in H as (y & [= -> ->] & Hy). done.
Qed.

Lemma unique_by_id_distinct items :
  NoDup (item_id <$> items) → unique_by_id items = items.
Proof.
  intros H. unfold unique_by_id, Map_values. rewrite new_Map_distinct.
  - rewrite <- list_fmap_compose. apply list_fmap_id.
  - by rewrite <- list_fmap_compose.
Qed.

(** In a list without repeated ids, an id that occurs selects one entry. *)
Lemma filter_id_NoDup (items : list HistoryItem) x :
  NoDup (item_id <$> items) → x ∈ items →
  List.filter (λ e, bool_decide (item_id e = item_id x)) items = [x].
Proof.
  induction items as [|y l IH]; intros Hnd Hx; [by apply elem_of_nil in Hx|].
  rewrite fmap_cons in Hnd. apply NoDup_cons in Hnd as [Hy Hl].
  assert (Hnone : ∀ z, item_id z ∉ item_id <$> l →
            List.filter (λ e, bool_decide (item_id e = item_id z)) l = []).
  { clear. intros z. induction l as [|a l IH]; simpl; [done|].
    rewrite not_elem_of_cons. intros [Hne Hz].
    rewrite bool_decide_eq_false_2 by congruence. auto. }
  simpl. apply elem_of_cons in Hx as [->|Hx].
  - rewrite bool_decide_eq_true_2 by done. by rewrite Hnone.
  - rewrite bool_decide_eq_false_2; [by apply IH|].
    intros Heq. apply Hy. rewrite Heq. by apply list_elem_of_fmap_2.
Qed.

(** ** The upsert of [saveToLocalStorage] *)

Section FindIndex.
Context {A : Type} (p : A → bool).

Lemma findIndex_Some l i :
  findIndex p l = Some i → ∃ x, l !! i = Some x ∧ p x = true.
Proof.
  revert i. induction l as [|y l IH]; intros i; unfold findIndex; simpl; [done|].
  fold (findIndex p l). destruct (p y) eqn:Hy.
  - intros [= <-]. eauto.
  - destruct (findIndex p l) as [j|]; simpl; [|done].
    intros [= <-]. by apply IH.
Qed.

Lemma findIndex_None l : findIndex p l = None → Forall (λ x, p x = false) l.
Proof.
  induction l as [|y l IH]; unfold findIndex; simpl; [constructor|].
  fold (findIndex p l). destruct (p y) eqn:Hy; [done|].
  destruct (findIndex p l); simpl; [done|]. intros _. constructor; auto.
Qed.
End FindIndex.

Lemma upsert_present r l :
  item_id r ∈ item_id <$> l →
  ∃ i x, l !! i = Some x ∧ item_id x = item_id r ∧ upsert r l = <[i := r]> l.
Proof.
  intros Hin. unfold upsert.
  destruct (findIndex _ l) as [i|] eqn:Hf.
  - apply findIndex_Some in Hf as (x & Hx & Hp). apply bool_decide_eq_true in Hp. eauto.
  - apply findIndex_None in Hf. apply list_elem_of_fmap in Hin as (x & Hid & Hx).
    rewrite Forall_forall in Hf. apply Hf in Hx.
    apply bool_decide_eq_false in Hx. congruence.
Qed.

Lemma upsert_absent r l :
  item_id r ∉ item_id <$> l → upsert r l = l ++ [r].
Proof.
  intros Hnin. unfold upsert.
  destruct (findIndex _ l) as [i|] eqn:Hf; [|done].
  apply findIndex_Some in Hf as (x & Hx & Hp). apply bool_decide_eq_true in Hp.
  exfalso. apply Hnin. rewrite <- Hp. eapply list_elem_of_fmap_2, list_elem_of_lookup_2, Hx.
Qed.

(** Saving under an id that is already stored replaces that report: the
    array keeps its length and its ids. *)
Lemma upsert_replaces r l :
  item_id r ∈ item_id <$> l →
  length (upsert r l) = length l ∧ item_id <$> upsert r l = item_id <$> l.
Proof.
  intros (i & x & Hx & Hid & ->)%upsert_present. split.
  - apply length_insert.
  - rewrite list_fmap_insert. apply list_insert_id.
    by rewrite list_lookup_fmap, Hx, <- Hid.
Qed.

Lemma upsert_ids r l :
  item_id <$> upsert r l
  = if decide (item_id r ∈ item_id <$> l) then item_id <$> l
    else (item_id <$> l) ++ [item_id r].
Proof.
  destruct (decide _) as [Hin|Hnin].
  - by apply upsert_replaces.
  - by rewrite upsert_absent, fmap_app.
Qed.

Lemma upsert_NoDup r l :
  NoDup (item_id <$> l) → NoDup (item_id <$> upsert r l).
Proof.
  intros Hl. rewrite upsert_ids. destruct (decide _) as [Hin|Hnin]; [done|].
  apply NoDup_app. split_and!; [done| |apply NoDup_singleton].
  intros x Hx ->%list_elem_of_singleton. done.
Qed.

Lemma elem_of_upsert_self r l : r ∈ upsert r l.
Proof.
  destruct (decide (item_id r ∈ item_id <$> l)) as [Hin|Hnin].
  - apply upsert_present in Hin as (i & x & Hx & _ & ->).
    eapply list_elem_of_lookup_2, list_lookup_insert_eq, lookup_lt_Some, Hx.
  - rewrite upsert_absent by done. apply elem_of_app. right. by left.
Qed.

Lemma elem_of_upsert x r l : x ∈ upsert r l → x = r ∨ x ∈ l.
Proof.
  destruct (decide (item_id r ∈ item_id <$> l)) as [Hin|Hnin].
  - apply upsert_present in Hin as (i & y & Hy & _ & ->).
    intros (j & Hj)%list_elem_of_lookup.
    destruct (decide (i = j)) as [->|Hne].
    + rewrite list_lookup_insert_eq in Hj by eauto using lookup_lt_Some. left. congruence.
    + rewrite list_lookup_insert_ne in Hj by done. right. eauto using list_elem_of_lookup_2.
  - rewrite upsert_absent by done. rewrite elem_of_app, list_elem_of_singleton. tauto.
Qed.

(** ** Local storage and the history list *)

Lemma saveToLocalStorage_eq s data id w :
  saveToLocalStorage s data id w =
  match ls_reports (localStorage w) with
  | Garbled => Throw SyntaxError w
  | _ =>
      if ls_full (localStorage w) then Throw QuotaExceededError w
      else Ok () (with_localStorage
                    {| ls_reports :=
                         Reports (upsert {| item_id := id; item_timestamp := clock w;
                                            item_data := with_techId (currentUser s) data |}
                                         (reports_of (localStorage w)));
                       ls_full := false |} w)
  end.
Proof.
  unfold saveToLocalStorage, parse_reports_or_empty, setItem_reports, Date_now,
    reports_of, upsert, mbind, M_bind.
  destruct (ls_reports (localStorage w)); simpl; try done;
    destruct (ls_full (localStorage w)); done.
Qed.

(** [loadHistory] always returns; it replaces the history by the merged
    view of what could be read, counts one cloud request, and writes to
    neither store. *)
Lemma loadHistory_eq s u w :
  currentUser s = Some u →
  ∃ evs,
    loadHistory s w =
      setHistory (merged_view (local_part (tech_id u) w ++ cloud_part (tech_id u) w))
        (with_db (next_call (cloud_docs (db w)) (db w)) (with_log (log w ++ evs) w))
    ∧ List.filter is_cloud_write evs = [] ∧ List.filter is_alert evs = [].
Proof.
  intros Hu. unfold loadHistory. rewrite Hu. unfold merged_view, local_part, cloud_part.
  destruct_world w. unfold_handlers.
  handler_cases; rewrite <- ?app_assoc, ?app_nil_r; eexists; (split; [reflexivity|done]).
Qed.

Lemma loadHistory_history s u w :
  currentUser s = Some u →
  history (app (state_of (loadHistory s w)))
  = merged_view (local_part (tech_id u) w ++ cloud_part (tech_id u) w).
Proof.
  intros Hu. destruct (loadHistory_eq s u w Hu) as (evs & -> & _). done.
Qed.

Lemma loadHistory_logged_out s w : currentUser s = None → loadHistory s w = Ok () w.
Proof. intros Hu. unfold loadHistory. by rewrite Hu. Qed.

Lemma merged_view_NoDup combined : NoDup (item_id <$> merged_view combined).
Proof. apply unique_by_id_NoDup. Qed.

Lemma elem_of_merged_view combined x : x ∈ merged_view combined → x ∈ combined.
Proof.
  unfold merged_view. intros H%elem_of_unique_by_id. by apply elem_of_array_sort in H.
Qed.

Lemma merged_view_ids combined id :
  id ∈ item_id <$> merged_view combined ↔ id ∈ item_id <$> combined.
Proof.
  unfold merged_view. rewrite elem_of_unique_by_id_ids.
  by rewrite (array_sort_Permutation newest_first combined).
Qed.

(** An id that occurs among the merged records occurs once in the view. *)
Lemma merged_view_once combined id :
  id ∈ item_id <$> combined →
  length (List.filter (λ e, bool_decide (item_id e = id)) (merged_view combined)) = 1%nat.
Proof.
  intros Hin. apply merged_view_ids, list_elem_of_fmap in Hin as (x & -> & Hx).
  by rewrite (filter_id_NoDup _ x (merged_view_NoDup combined) Hx).
Qed.

(** When no id repeats, deduplication changes nothing and the view is
    ordered newest first. *)
Lemma merged_view_distinct combined :
  NoDup (item_id <$> combined) →
  merged_view combined = array_sort newest_first combined
  ∧ StronglySorted newer_or_same (merged_view combined).
Proof.
  intros Hnd. unfold merged_view.
  rewrite unique_by_id_distinct.
  - split; [done|apply array_sort_newest_first].
  - by rewrite (array_sort_Permutation newest_first combined).
Qed.

(** C6. A local report and a cloud document that share an id (both owned by
    the technician) yield exactly one entry with that id in the list
    [loadHistory] produces; and ids never repeat in a list it produces. *)
Theorem loadHistory_dedup (s : AppState) (u : Technician) (w : World) :
  currentUser s = Some u →
  let view := history (app (state_of (loadHistory s w))) in
  NoDup (item_id <$> view) ∧
  ∀ (reports : list HistoryItem) (lr : HistoryItem) (cd : CloudDoc),
    ls_reports (localStorage w) = Reports reports →
    lr ∈ reports → item_data lr !! "techId" = Some (VStr (tech_id u)) →
    cd ∈ cloud_docs (db w) → doc_data cd !! "techId" = Some (VStr (tech_id u)) →
    doc_id cd = item_id lr →
    length (List.filter (λ e, bool_decide (item_id e = item_id lr)) view) = 1%nat.
Proof.
  intros Hu view. subst view. rewrite (loadHistory_history s u w Hu). split.
  - apply merged_view_NoDup.
  - intros reports lr cd Hls Hlr Hown _ _ _.
    apply merged_view_once. rewrite fmap_app, elem_of_app. left.
    apply list_elem_of_fmap_2. unfold local_part. rewrite Hls.
    apply list_elem_of_In, filter_In. split; [by apply list_elem_of_In|].
    unfold owned_by. by apply bool_decide_eq_true.
Qed.

(** ** [handleSave] *)

Lemma bound_id_nonempty id : id ≠ "" → bound_id (Some id) = Some id.
Proof. unfold bound_id. destruct (String.eqb_spec id ""); congruence. Qed.

Lemma save_id_bound s now id :
  currentDocId s = Some id → id ≠ "" → save_id s now = id.
Proof. intros Hd Hne. unfold save_id. by rewrite Hd, bound_id_nonempty. Qed.

Lemma save_id_unbound s now : currentDocId s = None → save_id s now = local_draft_id now.
Proof. intros Hd. unfold save_id. by rewrite Hd. Qed.

Lemma local_draft_id_prefix now : startsWith (local_draft_id now) "local_" = true.
Proof. reflexivity. Qed.

Lemma local_draft_id_nonempty now : local_draft_id now ≠ "".
Proof. done. Qed.

(** The cloud refuses the write and the local store works: the save lands
    in local storage under the id it works under. *)
Lemma handleSave_fallback s u w :
  saveStatus s = idle → currentUser s = Some u →
  cloud_takes_write (save_id s (clock w)) (db w) = false →
  local_storage_works (localStorage w) →
  ∃ w', handleSave s w = Ok () w' ∧
    currentDocId (app w') = Some (save_id s (clock w)) ∧
    saveStatus (app w') = local ∧
    localStorage w' =
      {| ls_reports := Reports (upsert (fallback_report s (clock w)) (reports_of (localStorage w)));
         ls_full := false |} ∧
    cloud_docs (db w') = cloud_docs (db w) ∧
    cloud_calls (db w') = S (S (cloud_calls (db w))) ∧
    history (app w') =
      merged_view (List.filter (owned_by (tech_id u))
                     (upsert (fallback_report s (clock w)) (reports_of (localStorage w)))
                   ++ cloud_part (tech_id u)
                        (with_db (next_call (cloud_docs (db w)) (db w)) w)) ∧
    timers w' = timers w ++ [(clock w + 2000, ResetSaveStatus)] ∧
    ∃ evs, log w' = log w ++ write_request u (formData s) (save_id s (clock w)) :: evs ∧
           List.filter is_cloud_write evs = [] ∧ List.filter is_alert evs = [].
Proof.
  intros Hs Hu Hc [Hfull Hgarbled].
  unfold handleSave. rewrite Hs, Hu.
  unfold mbind at 1 2 3 4 5, M_bind, setSaveStatus at 1, Date_now at 1, setCurrentDocId at 1.
  simpl. fold (save_id s (clock w)).
  set (id := save_id s (clock w)) in *.
  unfold cloud_takes_write, write_request in *.
  unfold try_catch at 1.
  destruct (startsWith id "local_") eqn:Hp.
  - unfold mbind at 1 2, M_bind, addDoc. simpl. rewrite Hc.
    unfold mbind at 1 2, M_bind, console, emit. simpl.
    rewrite saveToLocalStorage_eq. simpl. rewrite Hfull.
    destruct (ls_reports (localStorage w)) eqn:Hr; [|done|];
      simpl;
      match goal with |- context [loadHistory s ?w0] =>
        destruct (loadHistory_eq s u w0 Hu) as (evs & -> & Hw & Ha) end;
      simpl; (eexists; split; [reflexivity|]); simpl;
      unfold fallback_report, local_part, reports_of; simpl; rewrite ?Hr; simpl;
      (repeat split; try done); rewrite <- !app_assoc; simpl;
      (eexists; split; [reflexivity|]); simpl; rewrite Hw, Ha; done.
  - unfold mbind at 1, M_bind, updateDoc. simpl. rewrite Hc.
    unfold mbind at 1 2, M_bind, console, emit. simpl.
    rewrite saveToLocalStorage_eq. simpl. rewrite Hfull.
    destruct (ls_reports (localStorage w)) eqn:Hr; [|done|];
      simpl;
      match goal with |- context [loadHistory s ?w0] =>
        destruct (loadHistory_eq s u w0 Hu) as (evs & -> & Hw & Ha) end;
      simpl; (eexists; split; [reflexivity|]); simpl;
      unfold fallback_report, local_part, reports_of; simpl; rewrite ?Hr; simpl;
      (repeat split; try done); rewrite <- !app_assoc; simpl;
      (eexists; split; [reflexivity|]); simpl; rewrite Hw, Ha; done.
Qed.

(** The cloud refuses the write and the local store fails too: the
    exception of [saveToLocalStorage] leaves [handleSave]; the status stays
    at [saving], no timer is set, the history is not reloaded, nothing is
    shown. *)
Lemma handleSave_fallback_throws s u w :
  saveStatus s = idle → currentUser s = Some u →
  cloud_takes_write (save_id s (clock w)) (db w) = false →
  ¬ local_storage_works (localStorage w) →
  ∃ e w', handleSave s w = Throw e w' ∧
    (e = SyntaxError ∨ e = QuotaExceededError) ∧
    saveStatus (app w') = saving ∧
    currentDocId (app w') = Some (save_id s (clock w)) ∧
    localStorage w' = localStorage w ∧
    cloud_docs (db w') = cloud_docs (db w) ∧
    history (app w') = history (app w) ∧
    timers w' = timers w ∧
    ∃ evs, log w' = log w ++ evs ∧ List.filter is_alert evs = [].
Proof.
  intros Hs Hu Hc Hbroken.
  unfold handleSave. rewrite Hs, Hu.
  unfold mbind at 1 2 3 4 5, M_bind, setSaveStatus at 1, Date_now at 1, setCurrentDocId at 1.
  simpl. fold (save_id s (clock w)).
  set (id := save_id s (clock w)) in *.
  unfold cloud_takes_write in *.
  unfold try_catch at 1.
  assert (Hcases : ls_reports (localStorage w) = Garbled ∨
                   ls_reports (localStorage w) ≠ Garbled ∧ ls_full (localStorage w) = true).
  { unfold local_storage_works in Hbroken.
    destruct (ls_reports (localStorage w)), (ls_full (localStorage w)); naive_solver. }
  destruct (startsWith id "local_") eqn:Hp.
  - unfold mbind at 1 2, M_bind, addDoc. simpl. rewrite Hc.
    unfold mbind at 1 2, M_bind, console, emit. simpl.
    rewrite saveToLocalStorage_eq. simpl.
    destruct Hcases as [Hg|[Hg Hfull]].
    + rewrite Hg. simpl. do 2 eexists. split; [reflexivity|]. simpl.
      split_and!; auto. rewrite <- app_assoc. eexists; split; [reflexivity|done].
    + rewrite Hfull. destruct (ls_reports (localStorage w)); [|done|];
        simpl; (do 2 eexists); (split; [reflexivity|]); simpl;
        split_and!; auto; rewrite <- app_assoc; eexists; (split; [reflexivity|done]).
  - unfold mbind at 1, M_bind, updateDoc. simpl. rewrite Hc.
    unfold mbind at 1 2, M_bind, console, emit. simpl.
    rewrite saveToLocalStorage_eq. simpl.
    destruct Hcases as [Hg|[Hg Hfull]].
    + rewrite Hg. simpl. do 2 eexists. split; [reflexivity|]. simpl.
      split_and!; auto. rewrite <- app_assoc. eexists; split; [reflexivity|done].
    + rewrite Hfull. destruct (ls_reports (localStorage w)); [|done|];
        simpl; (do 2 eexists); (split; [reflexivity|]); simpl;
        split_and!; auto; rewrite <- app_assoc; eexists; (split; [reflexivity|done]).
Qed.

(** The cloud takes the write: the save returns with status [success] and
    leaves local storage alone. *)
Lemma handleSave_cloud s u w :
  saveStatus s = idle → currentUser s = Some u →
  cloud_takes_write (save_id s (clock w)) (db w) = true →
  ∃ w', handleSave s w = Ok () w' ∧
    saveStatus (app w') = success ∧
    currentDocId (app w') =
      Some (if startsWith (save_id s (clock w)) "local_"
            then cloud_newid (db w) (cloud_calls (db w))
            else save_id s (clock w)) ∧
    localStorage w' = localStorage w ∧
    timers w' = timers w ++ [(clock w + 2000, ResetSaveStatus)] ∧
    ∃ evs, log w' = log w ++ write_request u (formData s) (save_id s (clock w)) :: evs ∧
           List.filter is_cloud_write evs = [] ∧ List.filter is_alert evs = [].
Proof.
  intros Hs Hu Hc.
  unfold handleSave. rewrite Hs, Hu.
  unfold mbind at 1 2 3 4 5, M_bind, setSaveStatus at 1, Date_now at 1, setCurrentDocId at 1.
  simpl. fold (save_id s (clock w)).
  set (id := save_id s (clock w)) in *.
  unfold cloud_takes_write, write_request in *.
  unfold try_catch at 1.
  destruct (startsWith id "local_") eqn:Hp.
  - unfold mbind at 1 2, M_bind, addDoc. simpl. rewrite Hc.
    unfold setCurrentDocId at 1, setSaveStatus at 1. simpl.
    match goal with |- context [loadHistory s ?w0] =>
      destruct (loadHistory_eq s u w0 Hu) as (evs & -> & Hw & Ha) end.
    simpl. eexists. split; [reflexivity|]. simpl. split_and!; try done.
    rewrite <- !app_assoc. simpl. eexists. split; [reflexivity|]. by rewrite Hw, Ha.
  - unfold mbind at 1, M_bind, updateDoc. simpl. rewrite Hc.
    unfold setSaveStatus at 1. simpl.
    match goal with |- context [loadHistory s ?w0] =>
      destruct (loadHistory_eq s u w0 Hu) as (evs & -> & Hw & Ha) end.
    simpl. eexists. split; [reflexivity|]. simpl. split_and!; try done.
    rewrite <- !app_assoc. simpl. eexists. split; [reflexivity|]. by rewrite Hw, Ha.
Qed.

Lemma handleSave_guarded s w :
  saveStatus s ≠ idle ∨ currentUser s = None → handleSave s w = Ok () w.
Proof.
  unfold handleSave. destruct (saveStatus s), (currentUser s); naive_solver.
Qed.

Lemma local_storage_works_dec l : Decision (local_storage_works l).
Proof. unfold local_storage_works. apply _. Qed.

(** X13. The only way out of [handleSave] by an exception is a local
    fallback that finds local storage unusable: the button was live, the
    cloud refused the write, and local storage was garbled or full. *)
Lemma handleSave_throws_only_on_local_failure s w e w' :
  handleSave s w = Throw e w' →
  saveStatus s = idle ∧ (∃ u, currentUser s = Some u) ∧
  cloud_takes_write (save_id s (clock w)) (db w) = false ∧
  ¬ local_storage_works (localStorage w) ∧
  (e = SyntaxError ∨ e = QuotaExceededError).
Proof.
  intros Hthrow.
  destruct (decide (saveStatus s = idle)) as [Hs|Hs];
    [|by rewrite handleSave_guarded in Hthrow by auto].
  destruct (currentUser s) as [u|] eqn:Hu;
    [|by rewrite handleSave_guarded in Hthrow by auto].
  destruct (cloud_takes_write (save_id s (clock w)) (db w)) eqn:Hc.
  { destruct (handleSave_cloud s u w Hs Hu Hc) as (w1 & Heq & _). congruence. }
  destruct (local_storage_works_dec (localStorage w)) as [Hl|Hl].
  { destruct (handleSave_fallback s u w Hs Hu Hc Hl) as (w1 & Heq & _). congruence. }
  destruct (handleSave_fallback_throws s u w Hs Hu Hc Hl) as (e1 & w1 & Heq & He & _).
  rewrite Heq in Hthrow. injection Hthrow as -> ->. eauto 10.
Qed.

(** What an answered write leaves in the collection. *)
Lemma handleSave_cloud_docs s u w :
  saveStatus s = idle → currentUser s = Some u →
  cloud_takes_write (save_id s (clock w)) (db w) = true →
  let id := save_id s (clock w) in
  let n := cloud_calls (db w) in
  cloud_docs (db (state_of (handleSave s w)))
  = if startsWith id "local_"
    then cloud_docs (db w) ++
           [{| doc_id := cloud_newid (db w) n;
               doc_data := resolve_timestamps (cloud_clock (db w) n)
                             (<["timestamp" := VServerTimestamp]>
                                (<["techId" := VStr (tech_id u)]> (formData s))) |}]
    else (λ d, if decide (doc_id d = id)
               then {| doc_id := id;
                       doc_data := resolve_timestamps (cloud_clock (db w) n)
                                     (<["timestamp" := VServerTimestamp]> (formData s))
                                   ∪ doc_data d |}
               else d) <$> cloud_docs (db w).
Proof.
  intros Hs Hu Hc id n. subst id n. revert Hc.
  unfold cloud_takes_write, save_id. destruct_world w.
  destruct s as [user' form' docid' status' sub' hist']. simpl in *. subst.
  set (id := default _ _). intros Hc.
  unfold_handlers. simpl. fold id.
  destruct (startsWith id "local_") eqn:Hp; simpl; rewrite Hc; handler_cases; done.
Qed.


Lemma update_keeps_ids (id : string) (f : CloudDoc → FormData) (docs : list CloudDoc) :
  doc_id <$> ((λ d, if decide (doc_id d = id)
                    then {| doc_id := id; doc_data := f d |} else d) <$> docs)
  = doc_id <$> docs.
Proof.
  rewrite <- list_fmap_compose. apply list_fmap_ext. intros i d _. simpl.
  by destruct (decide (doc_id d = id)).
Qed.


(** ** The save button *)



(** X12. The status a completed save leaves is kept for two seconds,
    during which the Save button does nothing; once two seconds have
    passed the status is [idle] again. *)
Lemma handleSave_window w u ms :
  saveStatus (app w) = idle → currentUser (app w) = Some u → timers w = [] →
  local_storage_works (localStorage w) →
  0 ≤ ms < 2000 →
  let w1 := wait ms (step Save w) in
  saveStatus (app w1) ≠ idle ∧ dispatch handleSave w1 = Ok () w1 ∧
  saveStatus (app (wait 2000 (step Save w))) = idle.
Proof.
  intros Hs Hu Ht Hl Hms. unfold step, dispatch.
  assert (∃ w', handleSave (app w) w = Ok () w' ∧ saveStatus (app w') ≠ idle ∧
                timers w' = [(clock w' + 2000, ResetSaveStatus)]) as (w' & -> & Hst & Htm).
  { destruct (cloud_takes_write (save_id (app w) (clock w)) (db w)) eqn:Hc.
    - destruct (handleSave_cloud _ u w Hs Hu Hc) as (w' & Heq & Hst & _ & _ & Htm & _).
      exists w'. rewrite Hst, Htm, Ht. split_and!; [done..|].
      assert (clock w' = clock w) as ->; [|done].
      revert Heq. clear. destruct_world w. unfold_handlers. handler_cases; by intros [= <-].
    - destruct (handleSave_fallback _ u w Hs Hu Hc Hl)
        as (w' & Heq & _ & Hst & _ & _ & _ & _ & Htm & _).
      exists w'. rewrite Hst, Htm, Ht. split_and!; [done..|].
      assert (clock w' = clock w) as ->; [|done].
      revert Heq. clear. destruct_world w. unfold_handlers. handler_cases; by intros [= <-]. }
  simpl. unfold wait. rewrite Htm. simpl.
  destruct (Z.leb_spec (clock w' + 2000) (clock w' + ms)); [lia|].
  destruct (Z.leb_spec (clock w' + 2000) (clock w' + 2000)); [|lia].
  unfold array_sort. simpl. split_and!; [done| |done].
  apply handleSave_guarded. by left.
Qed.



(** C5, on a save whose cloud attempt fails while local storage is full.
    [handleSave] ends with the exception of [setItem]: nothing catches it
    and nothing tells the technician; the status stays [saving] with no
    timer to reset it, so later clicks on Save do nothing. *)
Theorem handleSave_local_failure_escapes :
  let w := sample_world (fresh_session acme_form) full_storage (sample_cloud [] always_down) in
  ∃ w', dispatch handleSave w = Throw QuotaExceededError w' ∧
    List.filter is_alert (log w') = [] ∧
    saveStatus (app w') = saving ∧ timers w' = [] ∧
    localStorage w' = full_storage ∧
    dispatch handleSave (wait 5000 w') = Ok () (wait 5000 w').
Proof.
  eexists. split; [vm_compute; reflexivity|]. vm_compute. done.
Qed.

(** Through [handleSubmit] the same exception becomes an unhandled
    rejection of the promise nobody awaits. *)
Lemma handleSubmit_local_failure_unhandled :
  let w := sample_world (fresh_session acme_signed) full_storage (sample_cloud [] always_down) in
  UnhandledRejection QuotaExceededError ∈ log (step Submit w) ∧
  List.filter is_alert (log (step Submit w)) = [].
Proof.
  split; [|vm_compute; done].
  apply list_elem_of_In. vm_compute. tauto.
Qed.

(** [handleSave] neither reads nor writes the submit flag, the blob store,
    the renderer or the log: two worlds that agree on the rest are taken to
    worlds that agree on the rest. *)
Lemma handleSave_frame s w1 w2 :
  localStorage w1 = localStorage w2 → db w1 = db w2 → clock w1 = clock w2 →
  currentDocId (app w1) = currentDocId (app w2) →
  saveStatus (app w1) = saveStatus (app w2) →
  history (app w1) = history (app w2) →
  let r1 := state_of (handleSave s w1) in
  let r2 := state_of (handleSave s w2) in
  localStorage r1 = localStorage r2 ∧ db r1 = db r2 ∧
  currentDocId (app r1) = currentDocId (app r2) ∧
  saveStatus (app r1) = saveStatus (app r2) ∧
  history (app r1) = history (app r2).
Proof.
  destruct w1 as [[user1 form1 docid1 status1 sub1 hist1] ls1 c1 blob1 pdf1 clock1 timers1 log1].
  destruct w2 as [[user2 form2 docid2 status2 sub2 hist2] ls2 c2 blob2 pdf2 clock2 timers2 log2].
  simpl. intros -> -> -> -> -> ->.
  destruct c2 as [docs calls up newid clk].
  unfold_handlers. handler_cases; done.
Qed.

(** What [handleSave] leaves alone. *)
Lemma handleSave_keeps s w :
  let r := state_of (handleSave s w) in
  currentUser (app r) = currentUser (app w) ∧ formData (app r) = formData (app w) ∧
  isSubmitting (app r) = isSubmitting (app w) ∧
  storage r = storage w ∧ pdf_engine r = pdf_engine w ∧ clock r = clock w ∧
  cloud_up (db r) = cloud_up (db w) ∧ cloud_newid (db r) = cloud_newid (db w) ∧
  cloud_clock (db r) = cloud_clock (db w) ∧
  ∃ evs, log r = log w ++ evs ∧ List.filter is_alert evs = [].
Proof.
  destruct_world w. unfold_handlers.
  handler_cases; split_and!; try done;
    rewrite <- ?app_assoc; first [by exists [] ; rewrite app_nil_r | by eexists].
Qed.

(** ** Submission *)

(** C8. When the technician's signature field is null (or otherwise
    falsy), [handleSubmit] shows the validation message and returns: nothing
    is rendered, uploaded or saved, and the component state, local storage,
    the cloud collection and the blob store are as before. *)
Theorem handleSubmit_unsigned (w : World) :
  truthy (formData (app w) !! "techSignature") = false →
  dispatch handleSubmit w
  = Ok () (with_log (log w ++ [Alert "Please sign the document before submitting."]) w) ∧
  let w' := step Submit w in
  app w' = app w ∧ localStorage w' = localStorage w ∧ db w' = db w ∧
  storage w' = storage w ∧ timers w' = timers w.
Proof.
  intros Hsig. unfold step, dispatch, handleSubmit. rewrite Hsig. simpl. done.
Qed.

Lemma handleSubmit_unsigned_witness :
  let w := sample_world (fresh_session acme_form) empty_storage (sample_cloud [] always_up) in
  dispatch handleSubmit w
  = Ok () (with_log (log w ++ [Alert "Please sign the document before submitting."]) w).
Proof.
  intros w. apply (handleSubmit_unsigned w). reflexivity.
Defined.

Lemma spawn_eq m w :
  ∃ evs, spawn m w = Ok () (with_log (log (state_of (m w)) ++ evs) (state_of (m w)))
         ∧ List.filter is_alert evs = [].
Proof.
  unfold spawn. destruct (m w) as [[] w'|e w']; simpl.
  - exists []. rewrite app_nil_r. by destruct w'.
  - by eexists.
Qed.

(** A signed form, a technician, a shop name and a drawable PDF: the
    submission reaches its save, in a world [w1] that differs from the
    initial one by the submit flag, the upload attempt and the download. *)
Lemma handleSubmit_reaches_save w u shopName pdf :
  truthy (formData (app w) !! "techSignature") = true →
  currentUser (app w) = Some u →
  formData (app w) !! "shopName" = Some (VStr shopName) →
  pdf_engine w (formData (app w)) = inr pdf →
  ∃ w1 subject body,
    dispatch handleSubmit w
    = (spawn (handleSave (app w));; setTimeout (OfferEmail subject body) 1000;;
       setIsSubmitting false;; setIsSubmitting false) w1 ∧
    same_documents w1 w ∧
    timers w1 = timers w ∧
    ∃ evs, log w1 = log w ++ evs ∧ List.filter is_alert evs = [] ∧
      Download ("ServiceCall_" +:+ replace_spaces shopName +:+ "_"
                +:+ pretty (clock w) +:+ ".pdf") pdf ∈ evs.
Proof.
  intros Hsig Hu Hshop Hpdf.
  unfold dispatch, handleSubmit. rewrite Hsig, Hu, Hshop. simpl.
  destruct w as [s ls c [enabled up files] engine clock timers log].
  simpl in *.
  unfold handleOfflineSubmit, generatePDFBlob, uploadBytes,
    try_catch, try_finally, setIsSubmitting, setTimeout, Date_now, console, alert, emit,
    throw, mbind, M_bind, mret, M_ret. simpl. rewrite Hpdf.
  destruct enabled, up; simpl;
    match goal with |- context [spawn ?m ?W] =>
      exists W; destruct (spawn_eq m W) as (evs & -> & Hev) end;
    simpl; do 2 eexists; (split; [reflexivity|]); simpl;
    (split; [by repeat split|]); (split; [done|]);
    rewrite <- ?app_assoc; eexists; (split; [reflexivity|]); simpl; (split; [done|]);
    apply list_elem_of_In; simpl; tauto.
Qed.

(** C9, as the code has it.  A submission of a signed form by a logged-in
    technician, with a shop name and a PDF that draws, downloads the PDF,
    shows no error, schedules the e-mail offer and runs the save of the Save
    button: local storage, the cloud collection, the binding, the status and
    the history end as that save leaves them, whatever the blob store does.
    When the button is live ([idle]), the cloud refuses the write and local
    storage works, the form is written to local storage. *)
Theorem handleSubmit_saves (w : World) (u : Technician) (shopName pdf : string) :
  truthy (formData (app w) !! "techSignature") = true →
  currentUser (app w) = Some u →
  formData (app w) !! "shopName" = Some (VStr shopName) →
  pdf_engine w (formData (app w)) = inr pdf →
  let fileName := "ServiceCall_" +:+ replace_spaces shopName +:+ "_"
                  +:+ pretty (clock w) +:+ ".pdf" in
  let w' := step Submit w in
  let saved := step Save w in
  (∃ evs, log w' = log w ++ evs ∧ Download fileName pdf ∈ evs ∧
          List.filter is_alert evs = []) ∧
  (∃ subject body, (clock w + 1000, OfferEmail subject body) ∈ timers w') ∧
  isSubmitting (app w') = false ∧
  localStorage w' = localStorage saved ∧ db w' = db saved ∧
  currentDocId (app w') = currentDocId (app saved) ∧
  saveStatus (app w') = saveStatus (app saved) ∧
  history (app w') = history (app saved) ∧
  (saveStatus (app w) = idle →
   cloud_takes_write (docId_of w) (db w) = false →
   local_storage_works (localStorage w) →
   ls_reports (localStorage w')
   = Reports (upsert (local_report w) (reports_of (localStorage w))) ∧
   local_report w ∈ reports_of (localStorage w') ∧
   item_data (local_report w) = <["techId" := VStr (tech_id u)]> (formData (app w))).
Proof.
  intros Hsig Hu Hshop Hpdf fileName w' saved. subst fileName w' saved.
  destruct (handleSubmit_reaches_save w u shopName pdf Hsig Hu Hshop Hpdf)
    as (w1 & subject & body & Heq & Hsame & Htm & evs1 & Hlog1 & Hal1 & Hdl).
  pose proof Hsame as (Hls & Hdb & Hclock & _ & _ & Hdoc & Hst & Hhist).
  unfold step. rewrite Heq. clear Heq.
  unfold mbind, M_bind.
  destruct (spawn_eq (handleSave (app w)) w1) as (evs3 & -> & Hal3).
  destruct (handleSave_frame (app w) w1 w Hls Hdb Hclock Hdoc Hst Hhist)
    as (Fls & Fdb & Fdoc & Fst & Fhist).
  destruct (handleSave_keeps (app w) w1)
    as (_ & _ & _ & _ & _ & Kclock & _ & _ & _ & evs2 & Klog & Kal).
  unfold setTimeout, setIsSubmitting, dispatch. simpl in *.
  split_and!; try done.
  - exists (evs1 ++ evs2 ++ evs3). split_and!.
    + rewrite Klog, Hlog1. by rewrite <- !app_assoc.
    + apply elem_of_app. by left.
    + rewrite !List.filter_app, Hal1, Kal, Hal3. done.
  - exists subject, body. rewrite Kclock, Hclock. apply elem_of_app. right. by left.
  - intros Hidle Hc Hl.
    destruct (handleSave_fallback (app w) u w Hidle Hu Hc Hl)
      as (r & Hr & _ & _ & Hrls & _).
    rewrite Fls, Hr. simpl. rewrite Hrls. unfold reports_of. simpl.
    split_and!; [done|apply elem_of_upsert_self|].
    unfold local_report, fallback_report. simpl. by rewrite Hu.
Qed.

Lemma handleSubmit_saves_witness :
  let w := sample_world (fresh_session acme_signed) empty_storage (sample_cloud [] always_down) in
  local_report w ∈ reports_of (localStorage (step Submit w)).
Proof.
  intros w.
  destruct (handleSubmit_saves w reon "Acme" "%PDF-1.3" eq_refl eq_refl eq_refl eq_refl)
    as (_ & _ & _ & _ & _ & _ & _ & _ & Hlocal).
  destruct (Hlocal eq_refl eq_refl) as (_ & Hin & _); [split; [reflexivity|discriminate]|].
  exact Hin.
Defined.

(** C9 as stated fails: a signed form is saved with the cloud down,
    corrected, and submitted while the status of that save is still shown.
    The PDF is downloaded, but the save of the submission is a no-op and
    local storage holds the form as it was before the correction. *)
Lemma submit_in_save_window_persists_nothing : ¬ submit_always_persists.
Proof.
  intros Hclaim.
  destruct (Hclaim (run [Save; Edit acme_corrected]
                      (sample_world (fresh_session acme_signed) empty_storage
                         (sample_cloud [] always_down))))
    as (_ & (r & Hr & Hdata) & _); [done..|].
  vm_compute in Hr. apply list_elem_of_singleton in Hr. subst r.
  apply (f_equal (λ d : FormData, d !! "shopName")) in Hdata.
  vm_compute in Hdata. discriminate.
Qed.

(** ** Ownership of what a save writes *)

Lemma lookup_update_payload (t : Z) (form old : FormData) (k : string) :
  k ≠ "timestamp" →
  (resolve_timestamps t (<["timestamp" := VServerTimestamp]> form) ∪ old) !! k
  = match form !! k with
    | Some v => Some (match v with VServerTimestamp => VTimestamp t | _ => v end)
    | None => old !! k
    end.
Proof.
  intros Hk. unfold resolve_timestamps.
  rewrite lookup_union, lookup_fmap, lookup_insert_ne by done.
  destruct (form !! k) as [v|]; simpl.
  - by destruct (old !! k).
  - by destruct (old !! k).
Qed.




(** ** One document, one history entry *)

(** C2, on a session whose first save finds the cloud down and whose second
    finds it up.  The first save binds the local-draft id and writes the
    local report; the second creates a cloud document, rebinds to the id the
    cloud assigned and leaves the local report behind: the history then
    lists the same form twice, under two ids. *)
Theorem promoted_draft_is_listed_twice :
  let w0 := sample_world (fresh_session acme_form) empty_storage
              (sample_cloud [] (down_until 2)) in
  let w1 := run [Save] w0 in
  let w2 := run [Save; Wait 2000; Save] w0 in
  currentDocId (app w1) = Some "local_draft_1000" ∧ saveStatus (app w1) = local ∧
  currentDocId (app w2) = Some "doc2" ∧ saveStatus (app w2) = success ∧
  (λ e, (item_id e, item_data e !! "shopName")) <$> history (app w2)
  = [("doc2", Some (VStr "Acme")); ("local_draft_1000", Some (VStr "Acme"))] ∧
  item_id <$> reports_of (localStorage w2) = ["local_draft_1000"] ∧
  doc_id <$> cloud_docs (db w2) = ["doc2"].
Proof. vm_compute. done. Qed.

(** With the cloud up throughout, or down throughout, the same two saves
    leave one entry. *)
Lemma steady_cloud_lists_once :
  let session up := run [Save; Wait 2000; Save]
                      (sample_world (fresh_session acme_form) empty_storage
                         (sample_cloud [] up)) in
  item_id <$> history (app (session always_up)) = ["doc0"] ∧
  item_id <$> history (app (session always_down)) = ["local_draft_1000"].
Proof. vm_compute. done. Qed.

(** ** Newest first *)

(** C7, on a session in which a report is created in the cloud, another
    report of the technician is newer there, and a later save of the first
    falls back to local storage.  The merged list is sorted newest first, and
    then the deduplication keeps, at the place of the newest copy, the
    oldest one: the list [loadHistory] produces is not ordered. *)
Theorem loadHistory_dedup_breaks_order :
  let w := run [Save; Wait 9000; Save]
             (sample_world (fresh_session acme_form) empty_storage
                (sample_cloud [other_report] (down_at 2))) in
  (λ e, (item_id e, item_timestamp e)) <$> history (app w) = [("doc0", 5000); ("Y", 6000)] ∧
  (λ e, (item_id e, item_timestamp e)) <$> reports_of (localStorage w) = [("doc0", 10000)] ∧
  ¬ StronglySorted newer_or_same (history (app w)).
Proof.
  intros w.
  assert (Hview : (λ e, (item_id e, item_timestamp e)) <$> history (app w)
                  = [("doc0", 5000); ("Y", 6000)]) by (vm_compute; reflexivity).
  split_and!; [done|vm_compute; reflexivity|].
  intros Hsorted.
  destruct (history (app w)) as [|a [|b [|c l]]]; try discriminate.
  injection Hview as _ Ha _ Hb.
  apply StronglySorted_inv in Hsorted as [_ Hall].
  apply Forall_cons in Hall as [Hab _].
  unfold newer_or_same in Hab. lia.
Qed.

(** Without a repeated id among the records read, the list is ordered. *)
Lemma loadHistory_sorted_if_distinct s u w :
  currentUser s = Some u →
  NoDup (item_id <$> local_part (tech_id u) w ++ cloud_part (tech_id u) w) →
  StronglySorted newer_or_same (history (app (state_of (loadHistory s w)))).
Proof.
  intros Hu Hnd. rewrite (loadHistory_history s u w Hu).
  by apply merged_view_distinct.
Qed.

Lemma loadHistory_dedup_witness :
  let w := sample_world (fresh_session acme_form)
             {| ls_reports := Reports [stale_local]; ls_full := false |}
             (sample_cloud [other_report; stale_cloud] always_up) in
  length (List.filter (λ e, bool_decide (item_id e = "X"))
            (history (app (state_of (loadHistory (app w) w))))) = 1%nat.
Proof.
  intros w. destruct (loadHistory_dedup (app w) reon w eq_refl) as [_ Hone].
  apply (Hone [stale_local] stale_local stale_cloud);
    [reflexivity|constructor|reflexivity|constructor; constructor|reflexivity|reflexivity].
Defined.

(** ** Sessions *)

Lemma same_documents_refl w : same_documents w w.
Proof. by repeat split. Qed.

Lemma same_documents_trans w1 w2 w3 :
  same_documents w1 w2 → same_documents w2 w3 → same_documents w1 w3.
Proof.
  unfold same_documents. intros (?&?&?&?&?&?&?&?) (?&?&?&?&?&?&?&?).
  split_and!; congruence.
Qed.

Lemma handleSave_same_documents s w1 w2 :
  same_documents w1 w2 →
  same_documents (state_of (handleSave s w1)) (state_of (handleSave s w2)).
Proof.
  intros (Hls & Hdb & Hclock & Hu & Hf & Hdoc & Hst & Hhist).
  destruct (handleSave_frame s w1 w2 Hls Hdb Hclock Hdoc Hst Hhist) as (?&?&?&?&?).
  destruct (handleSave_keeps s w1) as (Hu1 & Hf1 & _ & _ & _ & Hc1 & _).
  destruct (handleSave_keeps s w2) as (Hu2 & Hf2 & _ & _ & _ & Hc2 & _).
  unfold same_documents. split_and!; congruence.
Qed.

(** A submission leaves the documents as they were, or as the Save button
    would have left them. *)
Lemma handleSubmit_same_documents w :
  same_documents (step Submit w) w ∨ same_documents (step Submit w) (step Save w).
Proof.
  destruct (truthy (formData (app w) !! "techSignature")) eqn:Hsig; cycle 1.
  { left. unfold step, dispatch, handleSubmit. rewrite Hsig. simpl. by repeat split. }
  destruct (currentUser (app w)) as [u|] eqn:Hu; cycle 1.
  { left. unfold step, dispatch, handleSubmit. rewrite Hsig, Hu. simpl.
    unfold same_documents. simpl. by rewrite Hu. }
  assert (Hshop : (∃ n, formData (app w) !! "shopName" = Some (VStr n)) ∨
                  ∀ n, formData (app w) !! "shopName" ≠ Some (VStr n)).
  { destruct (formData (app w) !! "shopName") as [[]|]; eauto. }
  destruct Hshop as [[shopName Hshop]|Hshop]; cycle 1.
  { left. unfold step, dispatch, handleSubmit. rewrite Hsig, Hu. simpl.
    destruct w as [s ls c b engine clock timers log]. simpl in *. unfold_submit.
    destruct (formData s !! "shopName") as [[]|]; simpl;
      try (by repeat split); by edestruct Hshop. }
  destruct (pdf_engine w (formData (app w))) as [e|pdf] eqn:Hpdf.
  { left. unfold step, dispatch, handleSubmit. rewrite Hsig, Hu, Hshop. simpl.
    destruct w as [s ls c b engine clock timers log]. simpl in *. unfold_submit.
    simpl. rewrite Hpdf. simpl. by repeat split. }
  right.
  destruct (handleSubmit_reaches_save w u shopName pdf Hsig Hu Hshop Hpdf)
    as (w1 & subject & body & Heq & Hsame & _).
  unfold step. rewrite Heq. unfold mbind, M_bind.
  destruct (spawn_eq (handleSave (app w)) w1) as (evs3 & -> & _).
  apply (handleSave_same_documents (app w)) in Hsame.
  unfold setTimeout, setIsSubmitting, dispatch. simpl.
  destruct Hsame as (?&?&?&?&?&?&?&?). by repeat split.
Qed.


(** ** A submission and what is done during its upload *)

(** The two halves of [handleSubmit] make up the handler. *)
Lemma handleSubmit_split s w :
  handleSubmit s w
  = match handleSubmit_begin s w with
    | Ok (Some p) w1 => handleSubmit_resume p w1
    | Ok None w1 => Ok () w1
    | Throw e w1 => Throw e w1
    end.
Proof.
  unfold handleSubmit, handleSubmit_begin, handleSubmit_resume, upload_path.
  destruct (truthy (formData s !! "techSignature")); simpl; [|done].
  destruct (currentUser s) as [u|]; [|done].
  unfold handleOfflineSubmit, uploadBytes, uploadBytes_settle, generatePDFBlob,
    try_catch, try_finally, setIsSubmitting, setTimeout, Date_now, console, alert, emit,
    throw, mbind, M_bind, mret, M_ret.
  destruct_world w.
  destruct (formData s !! "shopName") as [[]|] eqn:Hshop; simpl; try reflexivity.
  destruct (pdf (formData s)) as [e|doc]; simpl; [reflexivity|].
  destruct blob as [enabled up_ files]. simpl.
  destruct enabled; simpl.
  - destruct up_; simpl.
    + destruct (spawn _ _); simpl; rewrite ?Hshop; reflexivity.
    + destruct (spawn _ _); simpl; rewrite ?Hshop; reflexivity.
  - destruct (spawn _ _); simpl; rewrite ?Hshop; reflexivity.
Qed.

(** A submission during whose upload nothing is done is the Submit button
    on its own, and a session of such moves is a run of actions. *)
Lemma move_SubmitAnd_nil w : move (SubmitAnd []) w = step Submit w.
Proof.
  unfold move, step, dispatch. rewrite handleSubmit_split.
  by destruct (handleSubmit_begin (app w) w) as [[p|] w1|e w1].
Qed.

Lemma session_Do actions w : session (Do <$> actions) w = run actions w.
Proof.
  revert w. induction actions as [|a actions IH]; intros w; [done|]. apply IH.
Qed.

(** ** Saving while an upload is in flight *)

(** C3, on a session in which Save is clicked while the upload of a
    submission is in flight; the cloud rejects every request and local
    storage works.  The save binds [local_draft_1000], writes the local
    report and ends with [local].  A millisecond later the upload settles
    and the rest of [handleSubmit] calls the [handleSave] of the render
    Submit was clicked in, which still sees no binding and an idle status:
    it mints [local_draft_1001], binds it and writes a second report of the
    same form.  The bound id has changed within the session and the history
    lists the form twice, although [handleSave] says of the id it binds
    "Lock to this ID for future saves". *)
Theorem save_during_upload_splits_the_draft :
  let w0 := sample_world (fresh_session acme_signed) empty_storage
              (sample_cloud [] always_down) in
  let form := <["techId" := VStr "1"]> acme_signed in
  let w1 := in_flight [Save; Wait 1] (state_of (dispatch handleSubmit_begin w0)) in
  let w2 := session [SubmitAnd [Save; Wait 1]] w0 in
  cloud_down w0 ∧ local_storage_works (localStorage w0) ∧
  (* after the save, with the upload still in flight *)
  isSubmitting (app w1) = true ∧ saveStatus (app w1) = local ∧
  currentDocId (app w1) = Some "local_draft_1000" ∧
  reports_of (localStorage w1)
  = [{| item_id := "local_draft_1000"; item_timestamp := 1000; item_data := form |}] ∧
  (* after the submission has ended *)
  isSubmitting (app w2) = false ∧ saveStatus (app w2) = local ∧
  currentDocId (app w2) = Some "local_draft_1001" ∧
  cloud_docs (db w2) = [] ∧
  reports_of (localStorage w2)
  = [{| item_id := "local_draft_1000"; item_timestamp := 1000; item_data := form |};
     {| item_id := "local_draft_1001"; item_timestamp := 1001; item_data := form |}] ∧
  history (app w2)
  = [{| item_id := "local_draft_1001"; item_timestamp := 1001; item_data := form |};
     {| item_id := "local_draft_1000"; item_timestamp := 1000; item_data := form |}].
Proof.
  split; [intros n; reflexivity|]. split; [split; [reflexivity|discriminate]|].
  vm_compute. split_and!; reflexivity.
Qed.

(** The same submission with nothing clicked during the upload, and the
    same clicks made after the submission has ended, leave one report under
    one id. *)
Lemma submission_alone_keeps_one_copy :
  let w0 := sample_world (fresh_session acme_signed) empty_storage
              (sample_cloud [] always_down) in
  let w2 := session [SubmitAnd [Wait 1]] w0 in
  let w3 := session [SubmitAnd []; Do Save; Do (Wait 1)] w0 in
  currentDocId (app w2) = Some "local_draft_1001" ∧
  item_id <$> reports_of (localStorage w2) = ["local_draft_1001"] ∧
  item_id <$> history (app w2) = ["local_draft_1001"] ∧
  currentDocId (app w3) = Some "local_draft_1000" ∧
  item_id <$> reports_of (localStorage w3) = ["local_draft_1000"] ∧
  item_id <$> history (app w3) = ["local_draft_1000"].
Proof. vm_compute. split_and!; reflexivity. Qed.

(** * Further properties *)

(** ** What the history list holds *)

Lemma cloud_items_cons now d docs :
  cloud_items now (d :: docs)
  = match cloud_timestamp now (doc_data d) with
    | inl e => inl e
    | inr t =>
        match cloud_items now docs with
        | inl e => inl e
        | inr items =>
            inr ({| item_id := doc_id d; item_timestamp := t; item_data := doc_data d |} :: items)
        end
    end.
Proof. reflexivity. Qed.

Lemma cloud_items_inr now docs items :
  cloud_items now docs = inr items → items = item_of now <$> docs.
Proof.
  revert items. induction docs as [|d docs IH]; intros items.
  - by intros [= <-].
  - rewrite cloud_items_cons.
    destruct (cloud_timestamp now (doc_data d)) as [e|t] eqn:Ht; [done|].
    destruct (cloud_items now docs) as [e|items']; [done|].
    intros [= <-]. rewrite fmap_cons. unfold item_of at 1. rewrite Ht.
    f_equal. by apply IH.
Qed.

Lemma cloud_timestamp_readable now d :
  readable d ↔ ∃ t, cloud_timestamp now (doc_data d) = inr t.
Proof.
  unfold readable, cloud_timestamp.
  destruct (doc_data d !! "timestamp") as [[]|]; naive_solver.
Qed.

Lemma cloud_items_readable now docs :
  Forall readable docs → cloud_items now docs = inr (item_of now <$> docs).
Proof.
  induction 1 as [|d docs Hd _ IH]; [done|].
  rewrite cloud_items_cons, IH, fmap_cons. unfold item_of at 2.
  apply (cloud_timestamp_readable now) in Hd as [t ->]. done.
Qed.

Lemma cloud_items_unreadable now docs :
  ¬ Forall readable docs → ∃ e, cloud_items now docs = inl e.
Proof.
  induction docs as [|d docs IH]; intros Hnot.
  - exfalso. apply Hnot. constructor.
  - rewrite cloud_items_cons.
    destruct (cloud_timestamp now (doc_data d)) as [e|t] eqn:Ht; [eauto|].
    destruct (cloud_items now docs) as [e|items] eqn:Hi; [eauto|].
    exfalso. apply Hnot. constructor.
    + apply (cloud_timestamp_readable now). eauto.
    + destruct (decide (Forall readable docs)) as [|Hn]; [done|].
      destruct (IH Hn) as [e He]. congruence.
Qed.

Lemma elem_of_local_part uid w e :
  e ∈ local_part uid w ↔
  ∃ reports, ls_reports (localStorage w) = Reports reports ∧ e ∈ reports ∧
             item_data e !! "techId" = Some (VStr uid).
Proof.
  unfold local_part. destruct (ls_reports (localStorage w)) as [| |reports].
  - split; [by intros ?%elem_of_nil|by intros (? & ? & _)].
  - split; [by intros ?%elem_of_nil|by intros (? & ? & _)].
  - rewrite list_elem_of_In, filter_In, <- list_elem_of_In.
    unfold owned_by. rewrite bool_decide_eq_true. split.
    + intros [? ?]. eauto.
    + intros (? & [= <-] & ? & ?). done.
Qed.

Lemma cloud_part_answered uid w :
  cloud_up (db w) (cloud_calls (db w)) = true →
  Forall readable (filter (λ d, doc_data d !! "techId" = Some (VStr uid)) (cloud_docs (db w))) →
  cloud_part uid w
  = item_of (clock w) <$> filter (λ d, doc_data d !! "techId" = Some (VStr uid)) (cloud_docs (db w)).
Proof.
  intros Hup Hread. unfold cloud_part. rewrite Hup.
  by rewrite (cloud_items_readable _ _ Hread).
Qed.

Lemma cloud_part_hidden uid w :
  cloud_up (db w) (cloud_calls (db w)) = false ∨
  ¬ Forall readable (filter (λ d, doc_data d !! "techId" = Some (VStr uid)) (cloud_docs (db w))) →
  cloud_part uid w = [].
Proof.
  unfold cloud_part. intros [->|Hbad]; [done|].
  destruct (cloud_up _ _); [|done].
  by destruct (cloud_items_unreadable (clock w) _ Hbad) as [e ->].
Qed.

Lemma elem_of_cloud_part uid w e :
  e ∈ cloud_part uid w →
  ∃ d, d ∈ cloud_docs (db w) ∧ doc_data d !! "techId" = Some (VStr uid) ∧ e = item_of (clock w) d.
Proof.
  unfold cloud_part. destruct (cloud_up _ _); [|by intros ?%elem_of_nil].
  destruct (cloud_items _ _) as [err|items] eqn:Hitems; [by intros ?%elem_of_nil|].
  apply cloud_items_inr in Hitems as ->.
  intros (d & -> & Hd)%list_elem_of_fmap.
  apply list_elem_of_filter in Hd as [? ?]. eauto.
Qed.

(** X1. Every entry of the list [loadHistory] produces is a stored record
    of the logged-in technician: a report of local storage or a document of
    the cloud collection whose [techId] is the technician's id. *)
Theorem loadHistory_lists_own_records (s : AppState) (u : Technician) (w : World) :
  currentUser s = Some u →
  ∀ e, e ∈ history (app (state_of (loadHistory s w))) →
    item_data e !! "techId" = Some (VStr (tech_id u)) ∧
    ((∃ reports, ls_reports (localStorage w) = Reports reports ∧ e ∈ reports) ∨
     (∃ d, d ∈ cloud_docs (db w) ∧ doc_id d = item_id e ∧ doc_data d = item_data e)).
Proof.
  intros Hu e. rewrite (loadHistory_history s u w Hu).
  intros [Hl|Hc]%elem_of_merged_view%elem_of_app.
  - apply elem_of_local_part in Hl as (reports & Hls & He & Hown). eauto.
  - apply elem_of_cloud_part in Hc as (d & Hd & Hown & ->). split; [done|]. right. eauto.
Qed.

Lemma loadHistory_lists_own_records_witness :
  let w := sample_world (fresh_session acme_form)
             {| ls_reports := Reports [stale_local]; ls_full := false |}
             (sample_cloud [foreign_doc; other_report] always_up) in
  Forall (λ e, item_data e !! "techId" = Some (VStr "1"))
         (history (app (state_of (loadHistory (app w) w)))).
Proof.
  intros w. apply Forall_forall. intros e He.
  by apply (loadHistory_lists_own_records (app w) reon w eq_refl e He).
Defined.

(** X2. No record is lost: the id of every report of the technician in
    local storage is in the list, and so is the id of every cloud document
    of the technician when the query is answered and the timestamps of the
    technician's documents are readable. *)
Theorem loadHistory_lists_every_id (s : AppState) (u : Technician) (w : World) :
  currentUser s = Some u →
  let view := history (app (state_of (loadHistory s w))) in
  (∀ reports r, ls_reports (localStorage w) = Reports reports → r ∈ reports →
     item_data r !! "techId" = Some (VStr (tech_id u)) → item_id r ∈ item_id <$> view) ∧
  (cloud_up (db w) (cloud_calls (db w)) = true →
   Forall readable (filter (λ d, doc_data d !! "techId" = Some (VStr (tech_id u))) (cloud_docs (db w))) →
   ∀ d, d ∈ cloud_docs (db w) → doc_data d !! "techId" = Some (VStr (tech_id u)) →
     doc_id d ∈ item_id <$> view).
Proof.
  intros Hu view. subst view. rewrite (loadHistory_history s u w Hu). split.
  - intros reports r Hls Hr Hown. apply merged_view_ids.
    rewrite fmap_app, elem_of_app. left. apply list_elem_of_fmap_2.
    apply elem_of_local_part. eauto.
  - intros Hup Hread d Hd Hown. apply merged_view_ids.
    rewrite fmap_app, elem_of_app. right.
    rewrite cloud_part_answered by done.
    apply (list_elem_of_fmap_2' _ _ (item_of (clock w) d)); [|done].
    apply list_elem_of_fmap_2. by apply list_elem_of_filter.
Qed.

Lemma loadHistory_lists_every_id_witness :
  let w := sample_world (fresh_session acme_form)
             {| ls_reports := Reports [stale_local]; ls_full := false |}
             (sample_cloud [foreign_doc; other_report] always_up) in
  "Y" ∈ item_id <$> history (app (state_of (loadHistory (app w) w))).
Proof.
  intros w.
  destruct (loadHistory_lists_every_id (app w) reon w eq_refl) as [_ Hcloud].
  apply (Hcloud eq_refl) with (d := other_report); [|right; left|reflexivity].
  vm_compute. repeat constructor.
Defined.

(** X3. One unreadable part hides that part only.  When the cloud query is
    rejected, or one of the technician's documents has a [timestamp] field
    that is not a timestamp, the list is made of the local reports alone;
    when local storage does not parse, of the cloud documents alone. *)
Theorem loadHistory_degrades (s : AppState) (u : Technician) (w : World) :
  currentUser s = Some u →
  let view := history (app (state_of (loadHistory s w))) in
  (cloud_up (db w) (cloud_calls (db w)) = false ∨
   ¬ Forall readable (filter (λ d, doc_data d !! "techId" = Some (VStr (tech_id u))) (cloud_docs (db w))) →
   view = merged_view (local_part (tech_id u) w)) ∧
  (ls_reports (localStorage w) = Garbled →
   view = merged_view (cloud_part (tech_id u) w)).
Proof.
  intros Hu view. subst view. rewrite (loadHistory_history s u w Hu). split.
  - intros Hbad. by rewrite cloud_part_hidden, app_nil_r.
  - intros Hg. unfold local_part. by rewrite Hg.
Qed.

Lemma loadHistory_degrades_witness :
  let w := sample_world (fresh_session acme_form)
             {| ls_reports := Reports [stale_local]; ls_full := false |}
             (sample_cloud [other_report] always_down) in
  history (app (state_of (loadHistory (app w) w))) = [stale_local].
Proof.
  intros w.
  destruct (loadHistory_degrades (app w) reon w eq_refl) as [Hlocal _].
  rewrite Hlocal; [reflexivity|]. left. reflexivity.
Defined.

(** ** Which copy the deduplication keeps *)

Section MapLast.
Context {A : Type}.
Implicit Types (m acc entries : list (string * A)) (kv : string * A).

Lemma elem_of_Map_set_inv kv k v m :
  NoDup m.*1 → kv ∈ Map_set k v m → kv = (k, v) ∨ (kv ∈ m ∧ kv.1 ≠ k).
Proof.
  induction m as [|[k' v'] m IH]; csimpl; intros Hnd.
  - rewrite list_elem_of_singleton. auto.
  - apply NoDup_cons in Hnd as [Hk' Hnd].
    destruct (decide (k' = k)) as [->|Hne].
    + intros [->|Hin]%elem_of_cons; [by left|]. right. split; [by right|].
      intros <-. apply Hk'. by apply list_elem_of_fmap_2.
    + intros [->|Hin]%elem_of_cons.
      * right. split; [by left|done].
      * destruct (IH Hnd Hin) as [->|[? ?]]; [by left|]. right. split; [by right|done].
Qed.

(** The value a [Map] built from entries holds for a key is the one of the
    last entry with that key. *)
Lemma new_Map_from_last entries acc kv :
  NoDup acc.*1 →
  kv ∈ fold_left (λ m kv, Map_set kv.1 kv.2 m) entries acc →
  (kv ∈ acc ∧ kv.1 ∉ entries.*1) ∨
  ∃ l1 l2, entries = l1 ++ kv :: l2 ∧ kv.1 ∉ l2.*1.
Proof.
  revert acc. induction entries as [|[k v] es IH]; intros acc Hnd; csimpl.
  - intros Hin. left. split; [done|]. by intros ?%elem_of_nil.
  - intros Hin. destruct (IH _ (Map_set_NoDup k v acc Hnd) Hin)
      as [[Hacc Hfresh]|(l1 & l2 & -> & Hlast)].
    + apply elem_of_Map_set_inv in Hacc as [->|[Hacc Hne]]; [| |done].
      * right. by exists [], es.
      * left. split; [done|]. rewrite not_elem_of_cons. done.
    + right. by exists ((k, v) :: l1), l2.
Qed.

Lemma new_Map_last entries kv :
  kv ∈ new_Map entries → ∃ l1 l2, entries = l1 ++ kv :: l2 ∧ kv.1 ∉ l2.*1.
Proof.
  intros Hin. apply new_Map_from_last in Hin as [[Hnil _]|?]; [|done|constructor].
  by apply elem_of_nil in Hnil.
Qed.
End MapLast.

Lemma unique_by_id_last items e :
  e ∈ unique_by_id items →
  ∃ l1 l2, items = l1 ++ e :: l2 ∧ item_id e ∉ item_id <$> l2.
Proof.
  unfold unique_by_id, Map_values. intros ([k v] & -> & Hin)%list_elem_of_fmap.
  pose proof (new_Map_entries _ _ Hin) as Hkv.
  apply list_elem_of_fmap in Hkv as (x & [= -> ->] & _).
  apply new_Map_last in Hin as (m1 & m2 & Hsplit & Hlast).
  apply fmap_app_inv in Hsplit as (l1 & l2' & -> & Hm2 & ->).
  symmetry in Hm2. apply fmap_cons_inv in Hm2 as (y & l2 & [= _ <-] & -> & ->).
  exists l1, l2. split; [done|]. simpl in *.
  by rewrite <- list_fmap_compose in Hlast.
Qed.

(** X4. Of the records that share an id, [loadHistory] keeps the oldest:
    the entry listed for an id has the smallest timestamp among the local
    reports and cloud documents of the technician with that id. *)
Theorem loadHistory_keeps_oldest_copy (s : AppState) (u : Technician) (w : World) :
  currentUser s = Some u →
  ∀ e x,
    e ∈ history (app (state_of (loadHistory s w))) →
    x ∈ local_part (tech_id u) w ++ cloud_part (tech_id u) w →
    item_id x = item_id e →
    item_timestamp e ≤ item_timestamp x.
Proof.
  intros Hu e x. rewrite (loadHistory_history s u w Hu). unfold merged_view.
  intros (l1 & l2 & Hsplit & Hlast)%unique_by_id_last Hx Hid.
  pose proof (array_sort_newest_first
                (local_part (tech_id u) w ++ cloud_part (tech_id u) w)) as Hsorted.
  apply (elem_of_array_sort newest_first) in Hx.
  rewrite Hsplit in Hsorted, Hx.
  apply elem_of_app in Hx as [Hx|Hx].
  - apply (StronglySorted_app_1_elem_of _ _ _ x e) in Hsorted; [done|done|by left].
  - apply elem_of_cons in Hx as [->|Hx]; [done|].
    exfalso. apply Hlast. rewrite <- Hid. by apply list_elem_of_fmap_2.
Qed.

Lemma loadHistory_keeps_oldest_copy_witness :
  let w := sample_world (fresh_session acme_form)
             {| ls_reports := Reports [stale_local]; ls_full := false |}
             (sample_cloud [other_report; stale_cloud] always_up) in
  Forall (λ e, item_id e = item_id stale_local → item_timestamp e ≤ 30)
         (history (app (state_of (loadHistory (app w) w)))).
Proof.
  intros w. apply Forall_forall. intros e He Hid.
  apply (loadHistory_keeps_oldest_copy (app w) reon w eq_refl e stale_local He);
    [left|by rewrite Hid].
Defined.

(** X5. [loadHistory] always returns, whatever the two stores do, and
    changes nothing but the history list: local storage, the cloud
    collection, the blob store, the form, the binding, the save status and
    the timers are as before, and nothing is shown to the technician. *)
Theorem loadHistory_only_sets_history (s : AppState) (w : World) :
  ∃ w', loadHistory s w = Ok () w' ∧
    localStorage w' = localStorage w ∧ cloud_docs (db w') = cloud_docs (db w) ∧
    storage w' = storage w ∧ timers w' = timers w ∧ clock w' = clock w ∧
    currentUser (app w') = currentUser (app w) ∧ formData (app w') = formData (app w) ∧
    currentDocId (app w') = currentDocId (app w) ∧
    saveStatus (app w') = saveStatus (app w) ∧
    isSubmitting (app w') = isSubmitting (app w) ∧
    (currentUser s = None → w' = w) ∧
    ∃ evs, log w' = log w ++ evs ∧ List.filter is_alert evs = [].
Proof.
  destruct (currentUser s) as [u|] eqn:Hu.
  - destruct (loadHistory_eq s u w Hu) as (evs & -> & _ & Halert).
    eexists. split; [reflexivity|]. simpl. split_and!; try done. eauto.
  - rewrite loadHistory_logged_out by done. exists w. split_and!; try done.
    exists []. by rewrite app_nil_r.
Qed.

(** X6. When no id occurs twice among the technician's local reports and
    cloud documents, the list holds exactly those records, newest first. *)
Theorem loadHistory_newest_first_without_duplicates
    (s : AppState) (u : Technician) (w : World) :
  currentUser s = Some u →
  NoDup (item_id <$> local_part (tech_id u) w ++ cloud_part (tech_id u) w) →
  let view := history (app (state_of (loadHistory s w))) in
  view ≡ₚ local_part (tech_id u) w ++ cloud_part (tech_id u) w ∧
  StronglySorted newer_or_same view.
Proof.
  intros Hu Hnd view. subst view. rewrite (loadHistory_history s u w Hu).
  destruct (merged_view_distinct _ Hnd) as [-> _]. split.
  - apply array_sort_Permutation.
  - apply array_sort_newest_first.
Qed.

Lemma loadHistory_newest_first_without_duplicates_witness :
  let w := sample_world (fresh_session acme_form)
             {| ls_reports := Reports [stale_local]; ls_full := false |}
             (sample_cloud [foreign_doc; other_report] always_up) in
  StronglySorted newer_or_same (history (app (state_of (loadHistory (app w) w)))).
Proof.
  intros w.
  apply (loadHistory_newest_first_without_duplicates (app w) reon w eq_refl).
  vm_compute. repeat constructor; set_solver.
Defined.

(** ** The file name of a submission *)

Lemma replace_spaces_go_clean in_run s :
  Forall (λ c, is_space c = false) (chars (replace_spaces_go in_run s)).
Proof.
  revert in_run. induction s as [|c s IH]; intros in_run; simpl; [constructor|].
  destruct (is_space c) eqn:Hc.
  - destruct in_run; [apply IH|]. simpl. constructor; [done|apply IH].
  - simpl. constructor; [done|apply IH].
Qed.

Lemma replace_spaces_go_fixed in_run s :
  Forall (λ c, is_space c = false) (chars s) → replace_spaces_go in_run s = s.
Proof.
  revert in_run. induction s as [|c s IH]; intros in_run; simpl; [done|].
  intros [Hc Hs]%Forall_cons. rewrite Hc. by rewrite IH.
Qed.

Lemma replace_spaces_go_length in_run s :
  (String.length (replace_spaces_go in_run s) ≤ String.length s)%nat.
Proof.
  revert in_run. induction s as [|c s IH]; intros in_run; simpl; [done|].
  destruct (is_space c).
  - destruct in_run; simpl; [specialize (IH true); lia|specialize (IH true); lia].
  - simpl. specialize (IH false). lia.
Qed.

(** X7. The part of the file name that comes from the shop name,
    [shopName.replace(/\s+/g, '_')], has no white space and is not longer
    than the shop name; a shop name without white space is kept as it is, so
    replacing twice is replacing once. *)
Theorem replace_spaces_clean (s : string) :
  Forall (λ c, is_space c = false) (chars (replace_spaces s)) ∧
  (String.length (replace_spaces s) ≤ String.length s)%nat ∧
  (Forall (λ c, is_space c = false) (chars s) → replace_spaces s = s) ∧
  replace_spaces (replace_spaces s) = replace_spaces s.
Proof.
  unfold replace_spaces. split_and!.
  - apply replace_spaces_go_clean.
  - apply replace_spaces_go_length.
  - apply replace_spaces_go_fixed.
  - apply replace_spaces_go_fixed, replace_spaces_go_clean.
Qed.

(** The no-break space is white space too. *)
Lemma replace_spaces_no_break_space :
  replace_spaces ("Acme" +:+ String (ascii_of_nat 160) "Ltd") = "Acme_Ltd".
Proof. reflexivity. Qed.

(** ** Submission: the other paths *)

(** X8. A PDF that fails to draw ends the submission: the technician is
    shown "Error generating document: " and the cause, nothing is uploaded,
    downloaded or saved, no e-mail offer is scheduled, and the submit flag is
    off again. *)
Theorem handleSubmit_render_failure
    (w : World) (u : Technician) (shopName : string) (e : Exn) :
  truthy (formData (app w) !! "techSignature") = true →
  currentUser (app w) = Some u →
  formData (app w) !! "shopName" = Some (VStr shopName) →
  pdf_engine w (formData (app w)) = inl e →
  let w' := step Submit w in
  log w' = log w ++ [PdfRender (formData (app w)); ConsoleLog "Submission failed" e;
                     Alert ("Error generating document: " +:+ message e)] ∧
  same_documents w' w ∧ storage w' = storage w ∧ timers w' = timers w ∧
  isSubmitting (app w') = false.
Proof.
  intros Hsig Hu Hshop Hpdf. unfold step, dispatch, handleSubmit.
  rewrite Hsig, Hu, Hshop. simpl.
  destruct w as [s ls c b engine clock timers log]. simpl in *. unfold_submit.
  simpl. rewrite Hpdf. simpl. rewrite <- !app_assoc. by repeat split.
Qed.

Lemma handleSubmit_render_failure_witness :
  let w := {| app := fresh_session acme_signed; localStorage := empty_storage;
              db := sample_cloud [] always_up;
              storage := {| blob_enabled := true; blob_up := true; blob_files := [] |};
              pdf_engine := λ _, inl (RenderError "Invalid image data");
              clock := 1000; timers := []; log := [] |} in
  log (step Submit w)
  = [PdfRender acme_signed; ConsoleLog "Submission failed" (RenderError "Invalid image data");
     Alert "Error generating document: Invalid image data"].
Proof.
  intros w.
  destruct (handleSubmit_render_failure w reon "Acme" (RenderError "Invalid image data")
              eq_refl eq_refl eq_refl eq_refl) as [Hlog _].
  exact Hlog.
Defined.

(** A submission that reaches its save, with what the upload attempt did to
    the blob store. *)
Lemma handleSubmit_blob w u shopName pdf :
  truthy (formData (app w) !! "techSignature") = true →
  currentUser (app w) = Some u →
  formData (app w) !! "shopName" = Some (VStr shopName) →
  pdf_engine w (formData (app w)) = inr pdf →
  let fileName := "ServiceCall_" +:+ replace_spaces shopName +:+ "_"
                  +:+ pretty (clock w) +:+ ".pdf" in
  let path := "service_sheets/" +:+ tech_id u +:+ "/" +:+ fileName in
  let w' := step Submit w in
  blob_files (storage w')
  = (if blob_enabled (storage w) && blob_up (storage w)
     then blob_files (storage w) ++ [(path, pdf)] else blob_files (storage w)) ∧
  blob_enabled (storage w') = blob_enabled (storage w) ∧
  blob_up (storage w') = blob_up (storage w) ∧
  ∃ evs1 evs2,
    log w' = log w ++ PdfRender (formData (app w)) :: evs1 ++ Download fileName pdf :: evs2 ∧
    evs1 = (if blob_enabled (storage w)
            then if blob_up (storage w) then [BlobUpload path]
                 else [BlobUpload path; ConsoleLog "Cloud upload skipped or failed" FirebaseError]
            else []).
Proof.
  intros Hsig Hu Hshop Hpdf.
  unfold step, dispatch, handleSubmit. rewrite Hsig, Hu, Hshop. simpl.
  destruct w as [s ls c [enabled up files] engine clock timers log].
  simpl in *.
  unfold handleOfflineSubmit, generatePDFBlob, uploadBytes,
    try_catch, try_finally, setIsSubmitting, setTimeout, Date_now, console, alert, emit,
    throw, mbind, M_bind, mret, M_ret. simpl. rewrite Hpdf.
  destruct enabled, up; simpl;
    match goal with |- context [spawn ?m ?W] =>
      destruct (spawn_eq m W) as (evs & -> & Hev);
      destruct (handleSave_keeps s W) as (_ & _ & _ & Hst & _ & _ & _ & _ & _ & evs' & Hlog & _);
      simpl in Hst, Hlog; revert Hst Hlog;
      generalize (state_of (handleSave s W))
    end;
    intros R Hst Hlog; simpl; rewrite Hst, Hlog; simpl; (split_and!; [done..|]);
    rewrite <- ?app_assoc; simpl; do 2 eexists; (split; [|reflexivity]);
    simpl; reflexivity.
Qed.

(** X9. The PDF of a submission goes to the blob store only when the store
    is configured and the browser is on line; when the upload is answered
    the blob is kept under [service_sheets/<technician id>/] with the file
    name of the download, and when it is rejected the store is as before and
    the download still follows.  The upload is attempted before the download. *)
Theorem handleSubmit_upload (w : World) (u : Technician) (shopName pdf : string) :
  truthy (formData (app w) !! "techSignature") = true →
  currentUser (app w) = Some u →
  formData (app w) !! "shopName" = Some (VStr shopName) →
  pdf_engine w (formData (app w)) = inr pdf →
  let fileName := "ServiceCall_" +:+ replace_spaces shopName +:+ "_"
                  +:+ pretty (clock w) +:+ ".pdf" in
  let path := "service_sheets/" +:+ tech_id u +:+ "/" +:+ fileName in
  let w' := step Submit w in
  (blob_enabled (storage w) = true → blob_up (storage w) = true →
     blob_files (storage w') = blob_files (storage w) ++ [(path, pdf)] ∧
     ∃ evs, log w' = log w ++ PdfRender (formData (app w)) :: BlobUpload path
                           :: Download fileName pdf :: evs) ∧
  (blob_enabled (storage w) = true → blob_up (storage w) = false →
     blob_files (storage w') = blob_files (storage w) ∧
     ∃ evs, log w' = log w ++ PdfRender (formData (app w)) :: BlobUpload path
                           :: ConsoleLog "Cloud upload skipped or failed" FirebaseError
                           :: Download fileName pdf :: evs) ∧
  (blob_enabled (storage w) = false →
     blob_files (storage w') = blob_files (storage w) ∧
     ∃ evs, log w' = log w ++ PdfRender (formData (app w)) :: Download fileName pdf :: evs).
Proof.
  intros Hsig Hu Hshop Hpdf fileName path w'.
  destruct (handleSubmit_blob w u shopName pdf Hsig Hu Hshop Hpdf)
    as (Hfiles & _ & _ & evs1 & evs2 & Hlog & Hevs1).
  fold fileName path w' in Hfiles, Hlog, Hevs1.
  split_and!.
  - intros He Hup. rewrite He, Hup in Hfiles, Hevs1. subst evs1.
    split; [exact Hfiles|]. exists evs2. exact Hlog.
  - intros He Hup. rewrite He, Hup in Hfiles, Hevs1. subst evs1.
    split; [exact Hfiles|]. exists evs2. exact Hlog.
  - intros He. rewrite He in Hfiles, Hevs1. subst evs1.
    split; [exact Hfiles|]. exists evs2. exact Hlog.
Qed.

Lemma handleSubmit_upload_witness :
  let w := {| app := fresh_session acme_signed; localStorage := empty_storage;
              db := sample_cloud [] always_up;
              storage := {| blob_enabled := true; blob_up := true; blob_files := [] |};
              pdf_engine := λ _, inr "%PDF-1.3";
              clock := 1000; timers := []; log := [] |} in
  blob_files (storage (step Submit w))
  = [("service_sheets/1/ServiceCall_Acme_1000.pdf", "%PDF-1.3")].
Proof.
  intros w.
  destruct (handleSubmit_upload w reon "Acme" "%PDF-1.3" eq_refl eq_refl eq_refl eq_refl)
    as (Hup & _ & _).
  destruct (Hup eq_refl eq_refl) as [Hfiles _]. exact Hfiles.
Defined.

(** X10. [handleSubmit] never ends with an exception, whatever the
    renderer, the blob store, the cloud and local storage do (a failure of its
    save stays inside the promise nobody awaits); once past its two guards it
    leaves the submit flag off; and it changes the documents (the two stores,
    the binding, the status, the history) only as the Save button would. *)
Theorem handleSubmit_always_returns (w : World) :
  (∃ w', dispatch handleSubmit w = Ok () w') ∧
  (truthy (formData (app w) !! "techSignature") = true →
   is_Some (currentUser (app w)) → isSubmitting (app (step Submit w)) = false) ∧
  (same_documents (step Submit w) w ∨ same_documents (step Submit w) (step Save w)).
Proof.
  split_and!; [| |apply handleSubmit_same_documents].
  - unfold dispatch, handleSubmit.
    destruct (truthy (formData (app w) !! "techSignature")); simpl; [|by eexists].
    destruct (currentUser (app w)) as [u|]; [|by eexists].
    destruct w as [s ls c [enabled up files] engine clock timers log]. simpl.
    unfold handleOfflineSubmit, generatePDFBlob, uploadBytes,
      try_catch, try_finally, setIsSubmitting, setTimeout, Date_now, console, alert, emit,
      throw, mbind, M_bind, mret, M_ret. simpl.
    destruct (formData s !! "shopName") as [[]|]; simpl; try by eexists.
    destruct (engine (formData s)); simpl; [by eexists|].
    destruct enabled, up; simpl;
      match goal with |- context [spawn ?m ?W] =>
        destruct (spawn_eq m W) as (evs & -> & _) end; by eexists.
  - intros Hsig [u Hu]. unfold step, dispatch, handleSubmit. rewrite Hsig, Hu. simpl.
    destruct w as [s ls c [enabled up files] engine clock timers log]. simpl.
    unfold handleOfflineSubmit, generatePDFBlob, uploadBytes,
      try_catch, try_finally, setIsSubmitting, setTimeout, Date_now, console, alert, emit,
      throw, mbind, M_bind, mret, M_ret. simpl.
    destruct (formData s !! "shopName") as [[]|]; simpl; try done.
    destruct (engine (formData s)); simpl; [done|].
    destruct enabled, up; simpl;
      match goal with |- context [spawn ?m ?W] =>
        destruct (spawn_eq m W) as (evs & -> & _) end; done.
Qed.

Lemma handleSubmit_always_returns_witness :
  let w := sample_world (fresh_session acme_signed) full_storage (sample_cloud [] always_down) in
  isSubmitting (app (step Submit w)) = false.
Proof.
  intros w. destruct (handleSubmit_always_returns w) as (_ & Hflag & _).
  apply Hflag; [reflexivity|by eexists].
Defined.

(** ** Sessions on a reliable cloud *)



















(** The premise on the moves is needed: with Save clicked while the upload
    is in flight, the save creates [doc0] and the rest of the submission,
    run as the closure of the render Submit was clicked in, creates [doc2]
    from the same form and binds it. *)
Lemma save_during_upload_duplicates_the_document :
  let w0 := sample_world (fresh_session acme_signed) empty_storage
              (sample_cloud [] always_up) in
  let w := session [SubmitAnd [Save; Wait 1]] w0 in
  doc_id <$> cloud_docs (db w) = ["doc0"; "doc2"] ∧
  currentDocId (app w) = Some "doc2" ∧
  item_id <$> history (app w) = ["doc2"; "doc0"].
Proof. vm_compute. split_and!; reflexivity. Qed.

(** ** The save button: timing and failure *)

Lemma handleSave_window_witness :
  let w := sample_world (fresh_session acme_form) empty_storage (sample_cloud [] always_up) in
  dispatch handleSave (wait 1999 (step Save w)) = Ok () (wait 1999 (step Save w)) ∧
  saveStatus (app (wait 2000 (step Save w))) = idle.
Proof.
  intros w.
  destruct (handleSave_window w reon 1999 eq_refl eq_refl eq_refl) as (_ & Hnoop & Hidle);
    [split; [reflexivity|discriminate]|lia|].
  split; [exact Hnoop|exact Hidle].
Defined.

Lemma handleSave_throws_only_on_local_failure_witness :
  let w := sample_world (fresh_session acme_form) full_storage (sample_cloud [] always_down) in
  cloud_takes_write (save_id (app w) (clock w)) (db w) = false ∧
  ¬ local_storage_works (localStorage w).
Proof.
  intros w.
  destruct (handleSave_throws_only_on_local_failure (app w) w QuotaExceededError
              (state_of (handleSave (app w) w))) as (_ & _ & Hcloud & Hlocal & _);
    [vm_compute; reflexivity|].
  split; [exact Hcloud|exact Hlocal].
Defined.

(** ** Local storage as a table of reports *)

Lemma upsert_cons r y l :
  upsert r (y :: l)
  = if bool_decide (item_id y = item_id r) then r :: l else y :: upsert r l.
Proof.
  unfold upsert, findIndex. fold (findIndex (λ x, bool_decide (item_id x = item_id r)) l).
  destruct (bool_decide (item_id y = item_id r)); [done|].
  by destruct (findIndex _ l).
Qed.

Lemma find_upsert r l :
  List.find (λ x, bool_decide (item_id x = item_id r)) (upsert r l) = Some r.
Proof.
  induction l as [|y l IH].
  - unfold upsert, findIndex. simpl. by rewrite bool_decide_eq_true_2.
  - rewrite upsert_cons. destruct (bool_decide (item_id y = item_id r)) eqn:Hy; simpl.
    + by rewrite bool_decide_eq_true_2.
    + by rewrite Hy.
Qed.

Lemma upsert_others r l i x :
  l !! i = Some x → item_id x ≠ item_id r → upsert r l !! i = Some x.
Proof.
  revert i. induction l as [|y l IH]; intros i; [done|].
  rewrite upsert_cons. destruct i as [|i]; simpl.
  - intros [= ->] Hne. by rewrite bool_decide_eq_false_2.
  - intros Hx Hne. destruct (bool_decide (item_id y = item_id r)); simpl; [done|]. by apply IH.
Qed.

Lemma upsert_length r l :
  length (upsert r l)
  = if decide (item_id r ∈ item_id <$> l) then length l else S (length l).
Proof.
  destruct (decide _) as [Hin|Hnin].
  - by apply upsert_replaces.
  - rewrite upsert_absent by done. rewrite length_app. simpl. lia.
Qed.

(** X14. [saveToLocalStorage] on a readable, writable store is an insert by
    id: afterwards the first report with the id is the one just written
    (with the technician's id attached), every report with another id is
    where it was, the array is one longer exactly when the id was new, and
    nothing else in the world has changed. *)
Theorem saveToLocalStorage_upserts
    (s : AppState) (data : FormData) (id : string) (w : World) :
  local_storage_works (localStorage w) →
  let before := reports_of (localStorage w) in
  let report := {| item_id := id; item_timestamp := clock w;
                   item_data := with_techId (currentUser s) data |} in
  ∃ after,
    saveToLocalStorage s data id w
    = Ok () (with_localStorage {| ls_reports := Reports after; ls_full := false |} w) ∧
    List.find (λ r, bool_decide (item_id r = id)) after = Some report ∧
    (∀ i r, before !! i = Some r → item_id r ≠ id → after !! i = Some r) ∧
    length after = (if decide (id ∈ item_id <$> before)
                    then length before else S (length before)).
Proof.
  intros [Hfull Hgarbled] before report. exists (upsert report before).
  rewrite saveToLocalStorage_eq, Hfull. fold before report. split_and!.
  - by destruct (ls_reports (localStorage w)).
  - apply (find_upsert report).
  - intros i r. apply (upsert_others report).
  - apply (upsert_length report).
Qed.

Lemma saveToLocalStorage_upserts_witness :
  let w := sample_world (fresh_session acme_form)
             {| ls_reports := Reports [stale_local]; ls_full := false |}
             (sample_cloud [] always_down) in
  ∃ after,
    saveToLocalStorage (app w) acme_signed "X" w
    = Ok () (with_localStorage {| ls_reports := Reports after; ls_full := false |} w) ∧
    length after = 1%nat.
Proof.
  intros w.
  destruct (saveToLocalStorage_upserts (app w) acme_signed "X" w)
    as (after & Heq & _ & _ & Hlen); [split; [reflexivity|discriminate]|].
  exists after. split; [exact Heq|exact Hlen].
Defined.

(** X15. When local storage cannot be read or written, [saveToLocalStorage]
    throws and leaves the world as it was: a garbled entry is never
    overwritten, so the store stays garbled until something else clears it. *)
Theorem saveToLocalStorage_failure
    (s : AppState) (data : FormData) (id : string) (w : World) :
  ¬ local_storage_works (localStorage w) →
  ∃ e, saveToLocalStorage s data id w = Throw e w ∧
       (ls_reports (localStorage w) = Garbled → e = SyntaxError) ∧
       (ls_reports (localStorage w) ≠ Garbled → e = QuotaExceededError).
Proof.
  unfold local_storage_works. intros Hbroken. rewrite saveToLocalStorage_eq.
  destruct (ls_reports (localStorage w)) eqn:Hr.
  - destruct (ls_full (localStorage w)); [by eexists|]. exfalso. apply Hbroken. done.
  - by eexists.
  - destruct (ls_full (localStorage w)); [by eexists|]. exfalso. apply Hbroken. done.
Qed.

Lemma saveToLocalStorage_failure_witness :
  let w := sample_world (fresh_session acme_form)
             {| ls_reports := Garbled; ls_full := false |} (sample_cloud [] always_down) in
  ∃ e, saveToLocalStorage (app w) acme_form "X" w = Throw e w.
Proof.
  intros w. destruct (saveToLocalStorage_failure (app w) acme_form "X" w) as (e & He & _).
  - intros [_ Hg]. by apply Hg.
  - by exists e.
Defined.

Lemma local_draft_id_inj t1 t2 : local_draft_id t1 = local_draft_id t2 → t1 = t2.
Proof.
  unfold local_draft_id. intros H%(inj (String.append "local_draft_")).
  by apply (inj pretty).
Qed.

(** X16. Drafts first saved offline at different clock readings get
    different ids, so the local report of the one survives the saving of the
    other; drafts minted at the same reading share the id, and the second
    save replaces the first report. *)
Theorem local_drafts_collide_only_in_the_same_millisecond
    (s1 s2 : AppState) (d1 d2 : FormData) (t1 t2 : Z) (w : World) :
  local_storage_works (localStorage w) →
  let r1 := {| item_id := local_draft_id t1; item_timestamp := clock w;
               item_data := with_techId (currentUser s1) d1 |} in
  let r2 := {| item_id := local_draft_id t2; item_timestamp := clock w;
               item_data := with_techId (currentUser s2) d2 |} in
  ∃ w', (saveToLocalStorage s1 d1 (local_draft_id t1);;
         saveToLocalStorage s2 d2 (local_draft_id t2)) w = Ok () w' ∧
    r2 ∈ reports_of (localStorage w') ∧
    (t1 ≠ t2 → r1 ∈ reports_of (localStorage w')) ∧
    (t1 = t2 →
     List.find (λ r, bool_decide (item_id r = local_draft_id t1)) (reports_of (localStorage w'))
     = Some r2).
Proof.
  intros Hworks r1 r2. pose proof Hworks as [Hfull Hgarbled].
  unfold mbind, M_bind.
  rewrite saveToLocalStorage_eq, Hfull.
  replace (match ls_reports (localStorage w) with Garbled => _ | _ => _ end)
    with (Ok () (with_localStorage
                   {| ls_reports := Reports (upsert r1 (reports_of (localStorage w)));
                      ls_full := false |} w))
    by (by destruct (ls_reports (localStorage w))).
  rewrite saveToLocalStorage_eq. simpl. unfold reports_of at 1. simpl.
  fold r2. eexists. split; [reflexivity|]. unfold reports_of at 1 2 3. simpl.
  split_and!.
  - apply elem_of_upsert_self.
  - intros Hne.
    destruct (list_elem_of_lookup_1 _ _ (elem_of_upsert_self r1 (reports_of (localStorage w))))
      as [i Hi].
    eapply list_elem_of_lookup_2, upsert_others; [exact Hi|].
    simpl. intros Heq%local_draft_id_inj. done.
  - intros ->. apply (find_upsert r2).
Qed.

Lemma local_drafts_witness :
  let w := sample_world (fresh_session acme_form) empty_storage (sample_cloud [] always_down) in
  ∃ w', (saveToLocalStorage (app w) acme_form (local_draft_id 1000);;
         saveToLocalStorage (app w) acme_signed (local_draft_id 1001)) w = Ok () w' ∧
        length (reports_of (localStorage w')) = 2%nat.
Proof.
  intros w.
  destruct (local_drafts_collide_only_in_the_same_millisecond
              (app w) (app w) acme_form acme_signed 1000 1001 w)
    as (w' & Heq & _); [split; [reflexivity|discriminate]|].
  exists w'. split; [exact Heq|].
  assert (Hw' : Ok () w' = (saveToLocalStorage (app w) acme_form (local_draft_id 1000);;
         saveToLocalStorage (app w) acme_signed (local_draft_id 1001)) w) by done.
  vm_compute in Hw'. injection Hw' as ->. reflexivity.
Defined.

(** ** The history folder: deleting *)

Lemma elem_of_without id items x :
  x ∈ without id items ↔ x ∈ items ∧ item_id x ≠ id.
Proof.
  unfold without. rewrite list_elem_of_In, filter_In, <- list_elem_of_In.
  rewrite negb_true_iff, bool_decide_eq_false. done.
Qed.

Lemma without_ids id items : id ∉ item_id <$> without id items.
Proof.
  intros (x & -> & Hx)%list_elem_of_fmap. apply elem_of_without in Hx as [_ Hne]. done.
Qed.

Lemma elem_of_docs_without id docs d :
  d ∈ docs_without id docs ↔ d ∈ docs ∧ doc_id d ≠ id.
Proof.
  unfold docs_without. rewrite list_elem_of_In, filter_In, <- list_elem_of_In.
  rewrite negb_true_iff, bool_decide_eq_false. done.
Qed.

(** A confirmed delete on a working local store, in full. *)
Lemma deleteHistoryItem_confirmed s id w :
  local_storage_works (localStorage w) →
  ∃ w', deleteHistoryItem s true id w = Ok () w' ∧
    localStorage w'
    = {| ls_reports := Reports (without id (reports_of (localStorage w))); ls_full := false |} ∧
    history (app w') = without id (history (app w)) ∧
    currentDocId (app w')
    = (if bool_decide (currentDocId s = Some id) then None else currentDocId (app w)) ∧
    formData (app w') = formData (app w) ∧
    currentUser (app w') = currentUser (app w) ∧
    saveStatus (app w') = saveStatus (app w) ∧
    db w' = next_call (if cloud_up (db w) (cloud_calls (db w))
                       then docs_without id (cloud_docs (db w)) else cloud_docs (db w)) (db w) ∧
    clock w' = clock w ∧ timers w' = timers w ∧
    List.filter is_alert (log w') = List.filter is_alert (log w).
Proof.
  intros [Hfull Hgarbled].
  destruct_world w. destruct ls as [reports full]. simpl in *. subst full.
  unfold reports_of, without, docs_without. unfold_folder. simpl.
  destruct (up calls); simpl; destruct reports as [| |reports]; simpl; try done;
    destruct (bool_decide (currentDocId s = Some id)); simpl;
    eexists; (split; [reflexivity|]); simpl;
    rewrite ?List.filter_app, ?app_nil_r; by split_and!.
Qed.

(** X17. A confirmed delete on a working local store removes every report
    with the id from local storage and every entry with the id from the
    history list, keeps the other reports and entries in their order, keeps
    the form as it is, and clears the binding exactly when the deleted id was
    the bound one; the cloud document goes when the cloud answers, and stays,
    with a console warning only, when it does not.  A declined delete changes
    nothing. *)
Theorem deleteHistoryItem_removes (s : AppState) (id : string) (w : World) :
  deleteHistoryItem s false id w = Ok () w ∧
  (local_storage_works (localStorage w) →
   ∃ w', deleteHistoryItem s true id w = Ok () w' ∧
     reports_of (localStorage w') = without id (reports_of (localStorage w)) ∧
     history (app w') = without id (history (app w)) ∧
     id ∉ item_id <$> reports_of (localStorage w') ∧
     id ∉ item_id <$> history (app w') ∧
     currentDocId (app w')
     = (if bool_decide (currentDocId s = Some id) then None else currentDocId (app w)) ∧
     formData (app w') = formData (app w) ∧
     currentUser (app w') = currentUser (app w) ∧
     saveStatus (app w') = saveStatus (app w) ∧
     cloud_docs (db w')
     = (if cloud_up (db w) (cloud_calls (db w))
        then docs_without id (cloud_docs (db w)) else cloud_docs (db w)) ∧
     List.filter is_alert (log w') = List.filter is_alert (log w)).
Proof.
  split; [done|]. intros Hworks.
  destruct (deleteHistoryItem_confirmed s id w Hworks)
    as (w' & Heq & Hls & Hh & Hb & Hf & Hu & Hst & Hdb & _ & _ & Hal).
  exists w'. rewrite Hls, Hh, Hdb. unfold reports_of at 1 2. simpl.
  split_and!; try done; apply without_ids.
Qed.

Lemma deleteHistoryItem_removes_witness :
  let w := sample_world
             {| currentUser := Some reon; formData := acme_form; currentDocId := Some "X";
                saveStatus := idle; isSubmitting := false; history := [stale_local] |}
             {| ls_reports := Reports [stale_local]; ls_full := false |}
             (sample_cloud [other_report; stale_cloud] always_up) in
  ∃ w', deleteHistoryItem (app w) true "X" w = Ok () w' ∧
        reports_of (localStorage w') = [] ∧ history (app w') = [] ∧
        currentDocId (app w') = None ∧ cloud_docs (db w') = [other_report].
Proof.
  intros w. destruct (deleteHistoryItem_removes (app w) "X" w) as [_ Hdel].
  destruct Hdel as (w' & Heq & Hls & Hh & _ & _ & Hb & _ & _ & _ & Hdocs & _);
    [split; [reflexivity|discriminate]|].
  exists w'. split_and!; [exact Heq|exact Hls|exact Hh|exact Hb|exact Hdocs].
Defined.

(** X18. A delete is final only when it reached the cloud.  After a
    confirmed delete the id is in neither the history list nor local storage;
    when the cloud answered the delete, the next [loadHistory] does not list
    the id either; when the cloud rejected it, the technician's cloud document
    is still there and the next [loadHistory] that reaches the cloud lists the
    id again. *)
Theorem deleteHistoryItem_final_iff_cloud_answered
    (s : AppState) (u : Technician) (id : string) (w : World) :
  currentUser s = Some u →
  local_storage_works (localStorage w) →
  let n := cloud_calls (db w) in
  let w1 := state_of (deleteHistoryItem s true id w) in
  let w2 := state_of (loadHistory s w1) in
  id ∉ item_id <$> history (app w1) ∧
  (cloud_up (db w) n = true → id ∉ item_id <$> history (app w2)) ∧
  (cloud_up (db w) n = false → cloud_up (db w) (S n) = true →
   Forall readable (filter (λ d, doc_data d !! "techId" = Some (VStr (tech_id u)))
                      (cloud_docs (db w))) →
   ∀ d, d ∈ cloud_docs (db w) → doc_data d !! "techId" = Some (VStr (tech_id u)) →
     doc_id d = id → id ∈ item_id <$> history (app w2)).
Proof.
  intros Hu Hworks n w1 w2. subst n w1 w2.
  destruct (deleteHistoryItem_confirmed s id w Hworks)
    as (w' & -> & Hls & Hh & _ & _ & _ & _ & Hdb & Hclock & _).
  simpl. rewrite (loadHistory_history s u w' Hu). split_and!.
  - rewrite Hh. apply without_ids.
  - intros Hup. rewrite Hup in Hdb. rewrite merged_view_ids, fmap_app, elem_of_app.
    intros [Hl|Hc].
    + apply list_elem_of_fmap in Hl as (x & -> & Hx).
      apply elem_of_local_part in Hx as (reports & Hr & Hx & _).
      rewrite Hls in Hr. simpl in Hr. injection Hr as <-.
      by apply elem_of_without in Hx as [_ ?].
    + apply list_elem_of_fmap in Hc as (x & -> & Hx).
      apply elem_of_cloud_part in Hx as (d & Hd & _ & ->).
      rewrite Hdb in Hd. simpl in Hd. by apply elem_of_docs_without in Hd as [_ ?].
  - intros Hdown Hup Hread d Hd Hown <-. rewrite Hdown in Hdb.
    rewrite merged_view_ids, fmap_app, elem_of_app. right.
    rewrite cloud_part_answered; rewrite Hdb; simpl; [|done|done].
    apply (list_elem_of_fmap_2' _ _ (item_of (clock w') d)); [|done].
    apply list_elem_of_fmap_2. by apply list_elem_of_filter.
Qed.

Lemma deleteHistoryItem_final_witness :
  let w := sample_world
             {| currentUser := Some reon; formData := acme_form; currentDocId := Some "X";
                saveStatus := idle; isSubmitting := false; history := [stale_local] |}
             {| ls_reports := Reports [stale_local]; ls_full := false |}
             (sample_cloud [other_report; stale_cloud] (down_at 0)) in
  "X" ∈ item_id <$> history (app (state_of (loadHistory (app w)
                                     (state_of (deleteHistoryItem (app w) true "X" w))))).
Proof.
  intros w.
  destruct (deleteHistoryItem_final_iff_cloud_answered (app w) reon "X" w eq_refl)
    as (_ & _ & Hback); [split; [reflexivity|discriminate]|].
  apply (Hback eq_refl eq_refl) with (d := stale_cloud);
    [vm_compute; repeat constructor|right; left|reflexivity|reflexivity].
Defined.

(** X19. When local storage cannot be read or written, a confirmed delete
    ends with that exception after its cloud request: the cloud document is
    gone if the cloud answered, while local storage, the history list and the
    binding are as before, so the entry is still shown. *)
Theorem deleteHistoryItem_local_failure (s : AppState) (id : string) (w : World) :
  ¬ local_storage_works (localStorage w) →
  ∃ e w', deleteHistoryItem s true id w = Throw e w' ∧
    (e = SyntaxError ∨ e = QuotaExceededError) ∧
    localStorage w' = localStorage w ∧ app w' = app w ∧
    cloud_docs (db w')
    = (if cloud_up (db w) (cloud_calls (db w))
       then docs_without id (cloud_docs (db w)) else cloud_docs (db w)).
Proof.
  unfold local_storage_works. intros Hbroken.
  destruct_world w. destruct ls as [reports full]. simpl in *.
  unfold docs_without. unfold_folder. simpl.
  destruct (up calls); simpl; destruct reports as [| |reports]; simpl;
    destruct full; simpl; try (exfalso; apply Hbroken; by split);
    do 2 eexists; (split; [reflexivity|]); simpl; split_and!; auto.
Qed.

Lemma deleteHistoryItem_local_failure_witness :
  let w := sample_world
             {| currentUser := Some reon; formData := acme_form; currentDocId := Some "X";
                saveStatus := idle; isSubmitting := false; history := [stale_local] |}
             {| ls_reports := Garbled; ls_full := false |}
             (sample_cloud [other_report; stale_cloud] always_up) in
  ∃ e w', deleteHistoryItem (app w) true "X" w = Throw e w' ∧
          history (app w') = [stale_local] ∧ cloud_docs (db w') = [other_report].
Proof.
  intros w.
  destruct (deleteHistoryItem_local_failure (app w) "X" w) as (e & w' & Heq & _ & _ & Happ & Hdocs).
  - intros [_ Hg]. by apply Hg.
  - exists e, w'. split_and!; [exact Heq|by rewrite Happ|exact Hdocs].
Defined.

(** ** The history folder: deleting and loading, then saving *)

(** X20. Deleting the bound document and saving again starts a new one: the
    delete clears the binding and keeps the form, so on a cloud that answers
    the next save creates a fresh document with the same form, stamped with
    the technician's id, and binds it. *)
Theorem delete_then_save_creates_a_new_document
    (w : World) (u : Technician) (id : string) :
  saveStatus (app w) = idle → currentUser (app w) = Some u →
  currentDocId (app w) = Some id →
  local_storage_works (localStorage w) →
  let n := cloud_calls (db w) in
  cloud_up (db w) n = true → cloud_up (db w) (S n) = true →
  let w1 := state_of (dispatch (λ s, deleteHistoryItem s true id) w) in
  let w2 := step Save w1 in
  currentDocId (app w1) = None ∧
  formData (app w2) = formData (app w) ∧
  saveStatus (app w2) = success ∧
  currentDocId (app w2) = Some (cloud_newid (db w) (S n)) ∧
  cloud_docs (db w2)
  = docs_without id (cloud_docs (db w)) ++
    [{| doc_id := cloud_newid (db w) (S n);
        doc_data := resolve_timestamps (cloud_clock (db w) (S n))
                      (<["timestamp" := VServerTimestamp]>
                         (<["techId" := VStr (tech_id u)]> (formData (app w)))) |}].
Proof.
  intros Hidle Hu Hbound Hworks n Hup0 Hup1 w1 w2. subst n w1 w2. unfold dispatch.
  destruct (deleteHistoryItem_confirmed (app w) id w Hworks)
    as (w1 & -> & _ & _ & Hb1 & Hf1 & Hu1 & Hst1 & Hdb1 & Hclock1 & _).
  simpl. rewrite Hbound, bool_decide_eq_true_2 in Hb1 by done. rewrite Hup0 in Hdb1.
  rewrite Hidle in Hst1. rewrite Hu in Hu1.
  assert (Hid : save_id (app w1) (clock w1) = local_draft_id (clock w1))
    by (by apply save_id_unbound).
  assert (Hc : cloud_takes_write (save_id (app w1) (clock w1)) (db w1) = true).
  { rewrite Hid. unfold cloud_takes_write. rewrite local_draft_id_prefix, Hdb1. done. }
  pose proof (handleSave_cloud_docs (app w1) u w1 Hst1 Hu1 Hc) as Hdocs.
  destruct (handleSave_cloud (app w1) u w1 Hst1 Hu1 Hc) as (w2 & Heq & Hst2 & Hb2 & _).
  destruct (handleSave_keeps (app w1) w1) as (_ & Hf2 & _).
  unfold step, dispatch. rewrite Heq in *. simpl in *.
  rewrite Hid, local_draft_id_prefix in Hb2, Hdocs. rewrite Hdb1 in Hb2, Hdocs. simpl in *.
  split_and!; [done|congruence|done|done|]. by rewrite Hdocs, Hf1.
Qed.

Lemma delete_then_save_witness :
  let w := sample_world
             {| currentUser := Some reon; formData := acme_form; currentDocId := Some "X";
                saveStatus := idle; isSubmitting := false; history := [stale_local] |}
             {| ls_reports := Reports [stale_local]; ls_full := false |}
             (sample_cloud [other_report; stale_cloud] always_up) in
  doc_id <$> cloud_docs (db (step Save (state_of (dispatch (λ s, deleteHistoryItem s true "X") w))))
  = ["Y"; "doc1"].
Proof.
  intros w.
  destruct (delete_then_save_creates_a_new_document w reon "X" eq_refl eq_refl eq_refl)
    as (_ & _ & _ & _ & Hdocs); [split; [reflexivity|discriminate]|reflexivity|reflexivity|].
  rewrite Hdocs. reflexivity.
Defined.

(** X21. Loading an entry of the folder and saving updates the document the
    entry came from: the form becomes the entry's data and the binding its
    id; with a cloud id of an existing document and the cloud answering, the
    save ends with [success], keeps the binding, adds no document and leaves
    local storage alone; the document's fields are overwritten by the
    entry's, its [techId] included.  A declined load changes nothing. *)
Theorem load_then_save_updates_in_place
    (w : World) (u : Technician) (data : FormData) (id : string) :
  saveStatus (app w) = idle → currentUser (app w) = Some u →
  id ≠ "" → startsWith id "local_" = false → has_doc id (db w) = true →
  cloud_up (db w) (cloud_calls (db w)) = true →
  let w1 := state_of (dispatch (λ s, loadHistoryItem s true data id) w) in
  let w2 := step Save w1 in
  dispatch (λ s, loadHistoryItem s false data id) w = Ok () w ∧
  formData (app w1) = data ∧ currentDocId (app w1) = Some id ∧
  saveStatus (app w2) = success ∧ currentDocId (app w2) = Some id ∧
  localStorage w2 = localStorage w ∧
  doc_id <$> cloud_docs (db w2) = doc_id <$> cloud_docs (db w) ∧
  ∀ d, d ∈ cloud_docs (db w) → doc_id d = id →
    ∃ d', d' ∈ cloud_docs (db w2) ∧ doc_id d' = id ∧
      (∀ k v, k ≠ "timestamp" → data !! k = Some v → v ≠ VServerTimestamp →
              doc_data d' !! k = Some v) ∧
      (∀ k, k ≠ "timestamp" → data !! k = None → doc_data d' !! k = doc_data d !! k).
Proof.
  intros Hidle Hu Hne Hp Hhas Hup w1 w2. subst w1 w2.
  split; [done|].
  set (w1 := state_of (dispatch (λ s, loadHistoryItem s true data id) w)).
  assert (Hw1 : formData (app w1) = data ∧ currentDocId (app w1) = Some id ∧
                saveStatus (app w1) = idle ∧ currentUser (app w1) = Some u ∧
                db w1 = db w ∧ localStorage w1 = localStorage w).
  { subst w1. destruct_world w. by subst. }
  clearbody w1. destruct Hw1 as (Hf1 & Hb1 & Hst1 & Hu1 & Hdb1 & Hls1).
  assert (Hid : save_id (app w1) (clock w1) = id) by (by apply save_id_bound).
  assert (Hc : cloud_takes_write (save_id (app w1) (clock w1)) (db w1) = true).
  { rewrite Hid. unfold cloud_takes_write. by rewrite Hp, Hdb1, Hup, Hhas. }
  pose proof (handleSave_cloud_docs (app w1) u w1 Hst1 Hu1 Hc) as Hdocs.
  destruct (handleSave_cloud (app w1) u w1 Hst1 Hu1 Hc) as (w2 & Heq & Hst2 & Hb2 & Hls2 & _).
  unfold step, dispatch. rewrite Heq in *. simpl in *.
  rewrite Hid, Hp in Hb2, Hdocs. rewrite Hdb1, Hf1 in Hdocs.
  split_and!; [done|done|done|done|congruence| |].
  - rewrite Hdocs. apply update_keeps_ids.
  - intros d Hd Hdid. eexists. split_and!.
    + rewrite Hdocs. apply list_elem_of_fmap. exists d. split; [|done].
      rewrite decide_True by done. reflexivity.
    + done.
    + intros k v Hk Hv Hsent. simpl. rewrite lookup_update_payload, Hv by done.
      by destruct v.
    + intros k Hk Hnone. simpl. by rewrite lookup_update_payload, Hnone.
Qed.

Lemma load_then_save_witness :
  let w := sample_world (fresh_session acme_form) empty_storage
             (sample_cloud [other_report; stale_cloud] always_up) in
  let w2 := step Save (state_of (dispatch (λ s, loadHistoryItem s true
                                              (item_data stale_local) "X") w)) in
  currentDocId (app w2) = Some "X" ∧ doc_id <$> cloud_docs (db w2) = ["Y"; "X"].
Proof.
  intros w w2.
  destruct (load_then_save_updates_in_place w reon (item_data stale_local) "X"
              eq_refl eq_refl) as (_ & _ & _ & _ & Hb & _ & Hids & _);
    [discriminate|reflexivity|reflexivity|reflexivity|].
  split; [exact Hb|exact Hids].
Defined.

(** ** What the folder shows *)

Lemma sort_insert_head x l :
  Forall (newer_or_same x) l → sort_insert newest_first x l = x :: l.
Proof.
  destruct 1 as [|y l Hy _]; simpl; [done|].
  unfold newest_first, newer_or_same in *.
  destruct (Z.ltb_spec 0 (item_timestamp y - item_timestamp x)); [lia|done].
Qed.

Lemma array_sort_sorted l :
  StronglySorted newer_or_same l → array_sort newest_first l = l.
Proof.
  induction 1 as [|x l _ IH Hx]; [done|].
  change (array_sort newest_first (x :: l))
    with (sort_insert newest_first x (array_sort newest_first l)).
  rewrite IH. by apply sort_insert_head.
Qed.

(** X22. The open folder shows the entries of the history list newest
    first, whatever order [loadHistory] left them in: its rows are a
    rearrangement of the list, sorted by timestamp, with no id twice when the
    list had none twice.  Rendering sorts the list itself, changes nothing
    else, and a second rendering shows the same rows. *)
Theorem HistoryModal_rows_newest_first (w : World) :
  ∃ rows, HistoryModal_rows w = Ok rows (state_of (setHistory rows w)) ∧
    rows ≡ₚ history (app w) ∧
    StronglySorted newer_or_same rows ∧
    (NoDup (item_id <$> history (app w)) → NoDup (item_id <$> rows)) ∧
    HistoryModal_rows (state_of (setHistory rows w))
    = Ok rows (state_of (setHistory rows w)).
Proof.
  exists (array_sort newest_first (history (app w))).
  pose proof (array_sort_newest_first (history (app w))) as Hsorted.
  split_and!.
  - done.
  - apply array_sort_Permutation.
  - done.
  - intros Hnd. by rewrite (array_sort_Permutation newest_first (history (app w))).
  - unfold HistoryModal_rows. simpl. rewrite (array_sort_sorted _ Hsorted).
    unfold setHistory, with_app. simpl. done.
Qed.

(** The rows of the session in which [loadHistory] leaves the list out of
    order. *)
Lemma HistoryModal_rows_repair_order :
  let w := run [Save; Wait 9000; Save]
             (sample_world (fresh_session acme_form) empty_storage
                (sample_cloud [other_report] (down_at 2))) in
  ∃ rows w', HistoryModal_rows w = Ok rows w' ∧
    (λ e, (item_id e, item_timestamp e)) <$> rows = [("Y", 6000); ("doc0", 5000)].
Proof. do 2 eexists. split; [vm_compute; reflexivity|]. vm_compute. reflexivity. Qed.

(** ** The login screen *)

Lemma LoginScreen_run_snoc st cs c :
  LoginScreen.run st (cs ++ [c]) = (LoginScreen.click (LoginScreen.run st cs) c).1.
Proof. revert st. induction cs as [|c' cs IH]; intros st; simpl; [done|apply IH]. Qed.

Lemma LoginScreen_possible_snoc users st cs c :
  LoginScreen.possible users st (cs ++ [c])
  = LoginScreen.possible users st cs && LoginScreen.rendered users (LoginScreen.run st cs) c.
Proof.
  revert st. induction cs as [|c' cs IH]; intros st; simpl.
  - by rewrite andb_true_r.
  - by rewrite IH, andb_assoc.
Qed.

Lemma pin_form_inv_later users cs st st' c u :
  LoginScreen.is_ClickProfile c = false →
  LoginScreen.selectedUser st = Some u → LoginScreen.selectedUser st' = Some u →
  (LoginScreen.pinInput st' = "" ∨ LoginScreen.pinInput st' = LoginScreen.pinInput st
   ∨ c = LoginScreen.TypePin (LoginScreen.pinInput st')) →
  (LoginScreen.loginMode st' = LoginScreen.loginMode st
   ∨ LoginScreen.loginMode st' = LoginScreen.admin_override ∧ c = LoginScreen.ClickForgotPin
   ∨ LoginScreen.loginMode st' = LoginScreen.new_pin
     ∧ LoginScreen.loginMode st = LoginScreen.admin_override
     ∧ LoginScreen.pinInput st = LoginScreen.MASTER_CODE) →
  pin_form_inv users cs st → pin_form_inv users (cs ++ [c]) st'.
Proof.
  intros Hc Hu Hu' Hpin Hmode. unfold pin_form_inv. rewrite Hu, Hu'.
  intros (pre & post & -> & Hin & Hpost & Htyped & Hforgot & Hmaster).
  exists pre, (post ++ [c]). split_and!.
  - by rewrite <- app_assoc.
  - done.
  - apply Forall_app. split; [done|]. by apply Forall_singleton.
  - destruct Hpin as [Hp|[Hp|Hp]].
    + by left.
    + rewrite Hp. destruct Htyped as [?|Ht]; [by left|right]. set_solver.
    + right. set_solver.
  - intros Hm. destruct Hmode as [He|[[_ ->]|(_ & Ha & _)]].
    + rewrite He in Hm. set_solver.
    + set_solver.
    + rewrite Ha in Hforgot. set_solver.
  - intros Hm. destruct Hmode as [He|[[Ha _]|(_ & Ha & Hcode)]].
    + rewrite He in Hm. set_solver.
    + congruence.
    + destruct Htyped as [Ht|Ht]; [by rewrite Ht in Hcode|].
      rewrite Hcode in Ht. set_solver.
Qed.

Lemma pin_form_inv_step users cs st c :
  pin_form_inv users cs st → LoginScreen.rendered users st c = true →
  pin_form_inv users (cs ++ [c]) (LoginScreen.click st c).1.
Proof.
  intros Hinv Hr.
  destruct c as [user| | |value| | |].
  { apply andb_true_iff in Hr as [_ Hin%bool_decide_eq_true].
    unfold pin_form_inv. simpl. exists cs, []. split_and!; try done. by left. }
  all: destruct (LoginScreen.selectedUser st) as [u|] eqn:Hu;
    [|unfold pin_form_inv; simpl; unfold LoginScreen.handlePinSubmit; rewrite ?Hu; simpl;
      rewrite ?Hu; done].
  all: simpl; unfold LoginScreen.handlePinSubmit; rewrite ?Hu.
  4: destruct (LoginScreen.loginMode st) eqn:Hm;
       [case_bool_decide|case_bool_decide|case_match]; simpl.
  all: eapply (pin_form_inv_later users cs st);
    [done|exact Hu|by simpl|simpl; auto|simpl; rewrite ?Hm; auto|done].
Qed.

Lemma pin_form_inv_run users cs :
  LoginScreen.possible users LoginScreen.initial cs = true →
  pin_form_inv users cs (LoginScreen.run LoginScreen.initial cs).
Proof.
  induction cs as [|c cs IH] using rev_ind; [done|].
  rewrite LoginScreen_possible_snoc, LoginScreen_run_snoc.
  intros [Hcs Hc]%andb_true_iff. by apply pin_form_inv_step; [apply IH|].
Qed.

(** X23. Nobody is logged in without the PIN or the manager code.  When a
    control of the login screen calls [onLogin], that control is Enter, a
    profile of the list was clicked, and since the last such click either
    that profile's PIN was typed (or it has an empty PIN) and the profile
    itself is logged in, or "Forgot PIN?" was used, the manager code and a
    new PIN of four characters or more were typed, and the profile is
    logged in with the new PIN. *)
Theorem login_needs_pin_or_manager_code
    (users : list Technician) (cs : list LoginScreen.Control) (c : LoginScreen.Control)
    (st' : LoginScreen.State) (t : Technician) :
  LoginScreen.possible users LoginScreen.initial (cs ++ [c]) = true →
  LoginScreen.click (LoginScreen.run LoginScreen.initial cs) c = (st', Some t) →
  c = LoginScreen.ClickEnter ∧
  ∃ pre post u, cs = pre ++ LoginScreen.ClickProfile u :: post ∧ u ∈ users ∧
    Forall (λ c, LoginScreen.is_ClickProfile c = false) post ∧
    ((t = u ∧ (tech_pin u = "" ∨ LoginScreen.TypePin (tech_pin u) ∈ post)) ∨
     (LoginScreen.ClickForgotPin ∈ post ∧
      LoginScreen.TypePin LoginScreen.MASTER_CODE ∈ post ∧
      LoginScreen.TypePin (tech_pin t) ∈ post ∧
      (4 ≤ String.length (tech_pin t))%nat ∧
      t = LoginScreen.with_pin (tech_pin t) u)).
Proof.
  rewrite LoginScreen_possible_snoc. intros [Hcs _]%andb_true_iff Hclick.
  pose proof (pin_form_inv_run users cs Hcs) as Hinv.
  set (st := LoginScreen.run LoginScreen.initial cs) in *. clearbody st.
  destruct c; simpl in Hclick; try discriminate. split; [done|].
  unfold LoginScreen.handlePinSubmit, pin_form_inv in *.
  destruct (LoginScreen.selectedUser st) as [u|]; [|discriminate].
  destruct Hinv as (pre & post & -> & Hin & Hpost & Htyped & Hforgot & Hmaster).
  exists pre, post, u. split_and!; [done..|].
  destruct (LoginScreen.loginMode st) eqn:Hm.
  - case_bool_decide as Hpin; [|discriminate]. injection Hclick as _ <-.
    left. split; [done|]. by rewrite <- Hpin.
  - by case_bool_decide.
  - destruct (Nat.ltb_spec (String.length (LoginScreen.pinInput st)) 4) as [|Hlen];
      [discriminate|]. injection Hclick as _ <-. simpl.
    right. split_and!; [by apply Hforgot|by apply Hmaster| |done|done].
    destruct Htyped as [Ht|Ht]; [|done]. rewrite Ht in Hlen. simpl in Hlen. lia.
Qed.

Lemma login_needs_pin_witness :
  ∃ pre post u,
    [LoginScreen.ClickProfile reon; LoginScreen.TypePin "12"; LoginScreen.ClickEnter;
     LoginScreen.TypePin "123456"]
    = pre ++ LoginScreen.ClickProfile u :: post ∧
    u ∈ [reon] ∧ Forall (λ c, LoginScreen.is_ClickProfile c = false) post.
Proof.
  destruct (login_needs_pin_or_manager_code [reon]
              [LoginScreen.ClickProfile reon; LoginScreen.TypePin "12"; LoginScreen.ClickEnter;
               LoginScreen.TypePin "123456"]
              LoginScreen.ClickEnter
              {| LoginScreen.view := LoginScreen.login_view;
                 LoginScreen.selectedUser := Some reon;
                 LoginScreen.loginMode := LoginScreen.pin;
                 LoginScreen.pinInput := "123456"; LoginScreen.error := "" |}
              reon)
    as (_ & pre & post & u & Hcs & Hin & Hpost & _).
  - vm_compute. reflexivity.
  - reflexivity.
  - exists pre, post, u. split; [exact Hcs|]. split; [exact Hin|exact Hpost].
Defined.

(** X24. The manager code opens every profile.  From the list, for any
    profile shown and whatever its PIN: profile, "Forgot PIN?", the manager
    code, Enter, a new PIN of four characters or more, Enter are all on the
    screen in turn, and the last Enter calls [onLogin] with that profile
    carrying the new PIN. *)
Theorem manager_code_opens_every_profile
    (users : list Technician) (st : LoginScreen.State) (u : Technician) (p : string) :
  LoginScreen.view st = LoginScreen.list_view → u ∈ users → (4 ≤ String.length p)%nat →
  let cs := [LoginScreen.ClickProfile u; LoginScreen.ClickForgotPin;
             LoginScreen.TypePin LoginScreen.MASTER_CODE; LoginScreen.ClickEnter;
             LoginScreen.TypePin p] in
  LoginScreen.possible users st (cs ++ [LoginScreen.ClickEnter]) = true ∧
  LoginScreen.click (LoginScreen.run st cs) LoginScreen.ClickEnter
  = ({| LoginScreen.view := LoginScreen.login_view; LoginScreen.selectedUser := Some u;
        LoginScreen.loginMode := LoginScreen.new_pin; LoginScreen.pinInput := p;
        LoginScreen.error := "" |},
     Some (LoginScreen.with_pin p u)).
Proof.
  intros Hview Hin Hlen cs. subst cs. simpl.
  unfold LoginScreen.handlePinSubmit. simpl.
  rewrite Hview, (bool_decide_eq_true_2 (u ∈ users)) by done. simpl.
  by destruct (Nat.ltb_spec (String.length p) 4); [lia|].
Qed.

Lemma manager_code_witness :
  (LoginScreen.click
     (LoginScreen.run LoginScreen.initial
        [LoginScreen.ClickProfile reon; LoginScreen.ClickForgotPin;
         LoginScreen.TypePin LoginScreen.MASTER_CODE; LoginScreen.ClickEnter;
         LoginScreen.TypePin "0000"])
     LoginScreen.ClickEnter).2
  = Some (LoginScreen.with_pin "0000" reon).
Proof.
  destruct (manager_code_opens_every_profile [reon] LoginScreen.initial reon "0000")
    as [_ Hlogin]; [reflexivity|apply list_elem_of_here|simpl; lia|].
  rewrite Hlogin. reflexivity.
Defined.

(** ** The time picker *)

#[local] Arguments String.append : simpl nomatch.

Lemma chars_app s1 s2 : chars (s1 +:+ s2) = chars s1 ++ chars s2.
Proof. induction s1 as [|c s1 IH]; simpl; [done|by rewrite IH]. Qed.

Lemma string_app_assoc (s1 s2 s3 : string) : (s1 +:+ s2) +:+ s3 = s1 +:+ (s2 +:+ s3).
Proof. induction s1 as [|c s1 IH]; simpl; [done|]. f_equal. exact IH. Qed.

Lemma string_app_nil_r (s : string) : s +:+ "" = s.
Proof. induction s as [|c s IH]; simpl; [done|]. f_equal. exact IH. Qed.

Lemma digits_numeral d r :
  Forall (λ c, TimePicker.is_digit c = true) (chars d) →
  TimePicker.digits (d +:+ r)
  = (d +:+ (TimePicker.digits r).1, (TimePicker.digits r).2).
Proof.
  induction d as [|c d IH]; simpl; intros Hd.
  - by destruct (TimePicker.digits r).
  - inversion_clear Hd as [|?? Hc Hd']. rewrite Hc, (IH Hd'). done.
Qed.

Lemma digits_all d :
  Forall (λ c, TimePicker.is_digit c = true) (chars d) → TimePicker.digits d = (d, "").
Proof.
  intros Hd. rewrite <- (string_app_nil_r d) at 1. rewrite digits_numeral by done.
  simpl. by rewrite string_app_nil_r.
Qed.

Lemma digits_none s :
  Forall (λ c, TimePicker.is_digit c = false) (chars s) → (TimePicker.digits s).1 = "".
Proof. destruct s as [|c s]; simpl; [done|]. inversion_clear 1 as [|?? Hc _]. by rewrite Hc. Qed.

Lemma decimal_go_app acc d e :
  TimePicker.decimal_go acc (d +:+ e)
  = TimePicker.decimal_go (TimePicker.decimal_go acc d) e.
Proof. revert acc. induction d as [|c d IH]; intros acc; simpl; [done|apply IH]. Qed.

Lemma pretty_N_char_digit (y : N) :
  (y < 10)%N →
  TimePicker.is_digit (pretty_N_char y) = true ∧
  TimePicker.digit_value (pretty_N_char y) = Z.of_N y.
Proof.
  intros Hy.
  assert (y = 0 ∨ y = 1 ∨ y = 2 ∨ y = 3 ∨ y = 4 ∨ y = 5 ∨ y = 6 ∨ y = 7 ∨ y = 8 ∨ y = 9)%N
    as Hcases by lia.
  repeat (destruct Hcases as [->|Hcases]; [by split|]). subst. by split.
Qed.

Lemma pretty_N_go_numeral (x : N) (s : string) :
  ∃ d, pretty_N_go x s = d +:+ s ∧
       Forall (λ c, TimePicker.is_digit c = true) (chars d) ∧
       TimePicker.decimal d = Z.of_N x ∧
       ((0 < x)%N → d ≠ "").
Proof.
  revert s. induction (N.lt_wf_0 x) as [x _ IH]; intros s.
  destruct (decide (x = 0%N)) as [->|Hx].
  { exists "". rewrite pretty_N_go_0. split_and!; [done|constructor|done|lia]. }
  rewrite pretty_N_go_step by lia.
  destruct (IH (x `div` 10)%N) with (s := String (pretty_N_char (x `mod` 10)) s)
    as (d & -> & Hd & Hval & _); [apply N.div_lt; lia|].
  destruct (pretty_N_char_digit (x `mod` 10)) as [Hc Hv]; [by apply N.mod_lt|].
  exists (d +:+ String (pretty_N_char (x `mod` 10)) ""). split_and!.
  - by rewrite string_app_assoc.
  - rewrite chars_app. apply Forall_app. split; [done|]. by repeat constructor.
  - unfold TimePicker.decimal in *. rewrite decimal_go_app, Hval. simpl. rewrite Hv.
    pose proof (N.div_mod x 10). lia.
  - intros _. by destruct d.
Qed.

(** The decimal numeral of a natural number: digits only, at least one,
    and read back as the number. *)
Lemma pretty_numeral (n : Z) :
  0 ≤ n →
  Forall (λ c, TimePicker.is_digit c = true) (chars (pretty n)) ∧
  TimePicker.decimal (pretty n) = n ∧ pretty n ≠ "".
Proof.
  intros Hn. destruct n as [|p|p]; [by repeat constructor| |lia].
  unfold pretty, pretty_Z, pretty, pretty_positive, pretty, pretty_N.
  rewrite decide_False by done.
  destruct (pretty_N_go_numeral (N.pos p) "") as (d & -> & Hd & Hval & Hne).
  rewrite string_app_nil_r. split_and!; [done|by rewrite Hval|by apply Hne].
Qed.

Lemma padStart_numeral n d :
  Forall (λ c, TimePicker.is_digit c = true) (chars d) → d ≠ "" →
  Forall (λ c, TimePicker.is_digit c = true) (chars (TimePicker.padStart n "0" d)) ∧
  TimePicker.decimal (TimePicker.padStart n "0" d) = TimePicker.decimal d ∧
  TimePicker.padStart n "0" d ≠ "".
Proof.
  intros Hd Hne. unfold TimePicker.padStart.
  induction (n - String.length d)%nat as [|k (IH1 & IH2 & IH3)]; simpl; [done|].
  split_and!; [by constructor|exact IH2|done].
Qed.

Lemma parseInt_numeral d :
  Forall (λ c, TimePicker.is_digit c = true) (chars d) → d ≠ "" →
  TimePicker.parseInt (Some d) = TimePicker.number (TimePicker.decimal d).
Proof.
  intros Hd Hne. pose proof (digits_all d Hd) as Hall.
  destruct d as [|c d]; [done|]. inversion Hd as [|?? Hc _]; subst.
  unfold TimePicker.parseInt.
  assert (TimePicker.trimStart (String c d) = String c d) as ->.
  { simpl. destruct c as [[] [] [] [] [] [] [] []]; done. }
  assert (match String c d with
          | String "-" r => (-1, r)
          | String "+" r => (1, r)
          | _ => (1, String c d)
          end = (1, String c d)) as ->.
  { destruct c as [[] [] [] [] [] [] [] []]; done. }
  rewrite Hall. simpl fst. rewrite bool_decide_eq_false_2 by done.
  f_equal. lia.
Qed.

Lemma amPmMatch_here s r :
  TimePicker.match_here s = Some r → TimePicker.amPmMatch s = Some r.
Proof. intros Hr. destruct s; cbn [TimePicker.amPmMatch]; by rewrite Hr. Qed.

(** X25. The picker reads back what it wrote.  For an hour and a minute
    from 0 to [2^53] (the integers a number holds exactly) and a period,
    the string [handleSave] hands to [onSave], given back as the initial
    value, restores exactly that hour, minute and period, whatever was
    selected before. *)
Theorem TimePicker_round_trip (h m : Z) (p : TimePicker.Period) (st : TimePicker.State) :
  0 ≤ h ≤ 2 ^ 53 → 0 ≤ m ≤ 2 ^ 53 →
  let chosen := {| TimePicker.selectedHour := TimePicker.Num h;
                   TimePicker.selectedMinute := TimePicker.Num m;
                   TimePicker.period := p |} in
  ∃ v, TimePicker.handleSave chosen = Some v ∧
       TimePicker.on_open (Some v) st = chosen.
Proof.
  intros Hh Hm chosen. subst chosen.
  assert (Hnh : TimePicker.number h = TimePicker.Num h).
  { unfold TimePicker.number. by destruct (Z.leb_spec (Z.abs h) (2 ^ 53)); [|lia]. }
  assert (Hnm : TimePicker.number m = TimePicker.Num m).
  { unfold TimePicker.number. by destruct (Z.leb_spec (Z.abs m) (2 ^ 53)); [|lia]. }
  unfold TimePicker.handleSave. cbn [TimePicker.selectedHour TimePicker.selectedMinute
    TimePicker.period TimePicker.toString].
  destruct (Z.leb_spec (Z.abs h) (2 ^ 53)) as [_|?]; [|lia].
  destruct (Z.leb_spec (Z.abs m) (2 ^ 53)) as [_|?]; [|lia].
  eexists. split; [reflexivity|].
  destruct (pretty_numeral h (proj1 Hh)) as (Hhd & Hhv & Hhne).
  destruct (pretty_numeral m (proj1 Hm)) as (Hmd0 & Hmv0 & Hmne0).
  destruct (padStart_numeral 2 (pretty m) Hmd0 Hmne0) as (Hmd & Hmv & Hmne).
  rewrite Hmv0 in Hmv.
  generalize dependent (TimePicker.padStart 2 "0" (pretty m)). intros MM Hmd Hmv Hmne.
  clear Hmd0 Hmv0 Hmne0.
  generalize dependent (pretty h). intros H Hhd Hhv Hhne.
  assert (Hhere : TimePicker.match_here
                    (H +:+ ":" +:+ MM +:+ " " +:+ TimePicker.period_name p)
                  = Some (H, MM, p)).
  { unfold TimePicker.match_here. rewrite digits_numeral by done.
    change (TimePicker.digits (":" +:+ MM +:+ " " +:+ TimePicker.period_name p))
      with ("", ":" +:+ MM +:+ " " +:+ TimePicker.period_name p).
    cbn [fst snd]. rewrite string_app_nil_r, bool_decide_eq_false_2 by done.
    change (":" +:+ MM +:+ " " +:+ TimePicker.period_name p)
      with (String ":" (MM +:+ " " +:+ TimePicker.period_name p)).
    cbv iota beta. rewrite digits_numeral by done.
    change (TimePicker.digits (" " +:+ TimePicker.period_name p))
      with ("", String " " (TimePicker.period_name p)).
    cbn [fst snd]. rewrite string_app_nil_r, bool_decide_eq_false_2 by done.
    by destruct p. }
  unfold TimePicker.on_open.
  rewrite bool_decide_eq_false_2 by (by destruct H).
  rewrite (amPmMatch_here _ _ Hhere).
  rewrite !parseInt_numeral by done. by rewrite Hhv, Hmv, Hnh, Hnm.
Qed.

Lemma TimePicker_round_trip_witness :
  ∃ v, TimePicker.handleSave
         {| TimePicker.selectedHour := TimePicker.Num 9;
            TimePicker.selectedMinute := TimePicker.Num 5;
            TimePicker.period := TimePicker.AM |} = Some v ∧
       TimePicker.on_open (Some v) TimePicker.initial
       = {| TimePicker.selectedHour := TimePicker.Num 9;
            TimePicker.selectedMinute := TimePicker.Num 5;
            TimePicker.period := TimePicker.AM |}.
Proof.
  apply (TimePicker_round_trip 9 5 TimePicker.AM TimePicker.initial); lia.
Defined.

(** Beyond [2^53] the model makes no promise: the numeral of [10^21] is read
    as a number whose digits are not modelled, and nothing is written back
    for it. *)
Lemma TimePicker_large_numbers_not_modelled :
  let st := TimePicker.on_open (Some "1000000000000000000000:05 PM") TimePicker.initial in
  TimePicker.selectedHour st = TimePicker.Huge false ∧ TimePicker.handleSave st = None.
Proof. vm_compute. done. Qed.

(** X26. A 24-hour value opens on the same time of day.  For an initial
    value "HH:mm" with the hour from 00 to 23 and the minute from 00 to 59,
    the picker shows the hour on the 12-hour dial (12 for 00 and for 12),
    the same minute, and AM before noon, PM from noon on. *)
Theorem TimePicker_reads_24_hour_values (h m : Z) (st : TimePicker.State) :
  0 ≤ h ≤ 23 → 0 ≤ m ≤ 59 →
  TimePicker.on_open
    (Some (TimePicker.padStart 2 "0" (pretty h) +:+ ":" +:+
           TimePicker.padStart 2 "0" (pretty m))) st
  = {| TimePicker.selectedHour := TimePicker.Num (if h mod 12 =? 0 then 12 else h mod 12);
       TimePicker.selectedMinute := TimePicker.Num m;
       TimePicker.period := if h <? 12 then TimePicker.AM else TimePicker.PM |}.
Proof.
  intros Hh Hm.
  assert (Hall : forallb (λ h, forallb (λ m,
            bool_decide
              (TimePicker.on_open
                 (Some (TimePicker.padStart 2 "0" (pretty h) +:+ ":" +:+
                        TimePicker.padStart 2 "0" (pretty m))) st
               = {| TimePicker.selectedHour :=
                      TimePicker.Num (if h mod 12 =? 0 then 12 else h mod 12);
                    TimePicker.selectedMinute := TimePicker.Num m;
                    TimePicker.period := if h <? 12 then TimePicker.AM else TimePicker.PM |}))
            (seqZ 0 60)) (seqZ 0 24) = true) by (vm_compute; reflexivity).
  rewrite forallb_forall in Hall.
  assert (Hin_h : In h (seqZ 0 24)) by (apply list_elem_of_In, elem_of_seqZ; lia).
  specialize (Hall h Hin_h). rewrite forallb_forall in Hall.
  assert (Hin_m : In m (seqZ 0 60)) by (apply list_elem_of_In, elem_of_seqZ; lia).
  specialize (Hall m Hin_m). by apply bool_decide_eq_true in Hall.
Qed.

Lemma TimePicker_reads_24_hour_values_witness :
  TimePicker.on_open (Some "13:45") TimePicker.initial
  = {| TimePicker.selectedHour := TimePicker.Num 1;
       TimePicker.selectedMinute := TimePicker.Num 45;
       TimePicker.period := TimePicker.PM |}.
Proof.
  apply (TimePicker_reads_24_hour_values 13 45 TimePicker.initial); lia.
Defined.

Lemma match_here_no_digit s :
  (TimePicker.digits s).1 = "" → TimePicker.match_here s = None.
Proof. intros Hs. unfold TimePicker.match_here. by rewrite Hs. Qed.

Lemma amPmMatch_no_digits s :
  Forall (λ c, TimePicker.is_digit c = false) (chars s) → TimePicker.amPmMatch s = None.
Proof.
  induction s as [|c s IH]; intros Hs; [done|].
  cbn [TimePicker.amPmMatch]. rewrite match_here_no_digit by (by apply digits_none).
  apply IH. by inversion Hs.
Qed.

Lemma until_colon_chars (P : ascii → Prop) s :
  Forall P (chars s) → Forall P (chars (TimePicker.until_colon s).1).
Proof.
  induction s as [|c s IH]; simpl; [done|]. inversion_clear 1.
  case_bool_decide; simpl; [constructor|]. constructor; auto.
Qed.

Lemma trimStart_chars (P : ascii → Prop) s :
  Forall P (chars s) → Forall P (chars (TimePicker.trimStart s)).
Proof.
  induction s as [|c s IH]; simpl; [done|]. intros Hs.
  destruct (is_space c); [|done]. apply IH. by inversion Hs.
Qed.

Lemma parseInt_no_digits s :
  Forall (λ c, TimePicker.is_digit c = false) (chars s) →
  TimePicker.parseInt (Some s) = TimePicker.NaN.
Proof.
  intros Hs%(trimStart_chars _ s). unfold TimePicker.parseInt.
  destruct (TimePicker.trimStart s) as [|c r]; [done|].
  inversion_clear Hs as [|?? Hc Hr].
  pose proof (digits_none r Hr) as Hnone.
  pose proof (digits_none (String c r) (Forall_cons_2 _ _ _ Hc Hr)) as Hnone'.
  destruct c as [[] [] [] [] [] [] [] []]; cbv iota beta; by rewrite ?Hnone, ?Hnone'.
Qed.

(** X27. An initial value the picker cannot read leaves the selection as
    it was: a value that is not empty and holds no digit changes neither
    hour, minute nor period.  No value, or the empty one, selects 12:00 PM. *)
Theorem TimePicker_keeps_selection_on_unreadable_value (v : string) (st : TimePicker.State) :
  v ≠ "" → Forall (λ c, TimePicker.is_digit c = false) (chars v) →
  TimePicker.on_open (Some v) st = st ∧
  TimePicker.on_open (Some "") st = TimePicker.initial ∧
  TimePicker.on_open None st = TimePicker.initial.
Proof.
  intros Hne Hv. split; [|done].
  unfold TimePicker.on_open. rewrite bool_decide_eq_false_2 by done.
  rewrite amPmMatch_no_digits by done.
  unfold TimePicker.split_colon. cbn [fst].
  by rewrite parseInt_no_digits by (by apply until_colon_chars).
Qed.

Lemma TimePicker_keeps_selection_witness :
  TimePicker.on_open (Some "noon")
    {| TimePicker.selectedHour := TimePicker.Num 3;
       TimePicker.selectedMinute := TimePicker.Num 30;
       TimePicker.period := TimePicker.AM |}
  = {| TimePicker.selectedHour := TimePicker.Num 3;
       TimePicker.selectedMinute := TimePicker.Num 30;
       TimePicker.period := TimePicker.AM |}.
Proof.
  apply (TimePicker_keeps_selection_on_unreadable_value "noon"); [discriminate|].
  repeat constructor.
Defined.
